(** * ForgeJS: media resolution and post-processing pass compilation

    A shallow embedding of two classes of the ForgeJS player,
    [FORGE.Media] (media configuration parsing, readiness notification,
    teardown) and [FORGE.PostProcessing] (shader pass construction from an
    FX configuration), together with the properties their specification
    states about them.

    The JavaScript values the code inspects dynamically (with [typeof],
    [===], truthiness, [hasOwnProperty], property reads on possibly
    [null] values) are kept dynamic, as a small value type with the
    corresponding operations; thrown exceptions are explicit results. *)

From Stdlib Require Import ZArith Ascii.
From stdpp Require Import base option list strings pretty gmap.

Open Scope string_scope.
Set Warnings "-register-all".

(** ** JavaScript values *)

Module JS.

(** Values that reach the two classes: the JSON data of a configuration
    ([undefined] standing for an absent property) and the engine objects
    that [parseShaderPasses] constructs ([new THREE.Color(..)],
    [new THREE.Vector2(..)], [new THREE.Vector3(..)]).  An object literal
    is the list of its own properties in enumeration order. Numbers carry
    an integer; none of the code modelled here does arithmetic. *)
Inductive value : Type :=
| VUndefined
| VNull
| VBool (b : bool)
| VNum (n : Z)
| VStr (s : string)
| VArr (items : list value)
| VObj (props : list (string * value))
| VColor3 (r g b : value)      (* new THREE.Color(r, g, b) *)
| VColor1 (c : value)          (* new THREE.Color(c) *)
| VVector2 (x y : value)       (* new THREE.Vector2(x, y) *)
| VVector3 (x y z : value).    (* new THREE.Vector3(x, y, z) *)

(** What a [throw] carries: the engine's own [TypeError] (property access
    on [null] or [undefined], call of something that is no function), a
    thrown string ([FORGE.Media] throws bare strings), or [new Error(msg)]. *)
Inductive exn : Type :=
| TypeError (what : string)
| ThrownString (s : string)
| ThrownError (msg : string).

Inductive completion (A : Type) : Type :=
| Normal (a : A)
| Throw (e : exn).
Arguments Normal {A} a.
Arguments Throw {A} e.

Definition is_throw {A} (c : completion A) : bool :=
  match c with Throw _ => true | Normal _ => false end.

Definition typeof (v : value) : string :=
  match v with
  | VUndefined => "undefined"
  | VBool _ => "boolean"
  | VNum _ => "number"
  | VStr _ => "string"
  | _ => "object"
  end.

(** [v === w] where [w] is a string, a boolean or a number literal. *)
Definition strict_eq_str (v : value) (s : string) : bool :=
  match v with VStr s' => bool_decide (s' = s) | _ => false end.

Definition strict_eq_bool (v : value) (b : bool) : bool :=
  match v with VBool b' => bool_decide (b' = b) | _ => false end.

Definition strict_eq_num (v : value) (n : Z) : bool :=
  match v with VNum n' => bool_decide (n' = n) | _ => false end.

(** [v === null] *)
Definition is_null (v : value) : bool :=
  match v with VNull => true | _ => false end.

(** ToBoolean, as used by [!x]. *)
Definition truthy (v : value) : bool :=
  match v with
  | VUndefined | VNull => false
  | VBool b => b
  | VNum n => negb (bool_decide (n = 0%Z))
  | VStr s => negb (bool_decide (s = ""))
  | _ => true
  end.

Definition isArray (v : value) : bool :=
  match v with VArr _ => true | _ => false end.

Fixpoint assoc (k : string) (props : list (string * value)) : option value :=
  match props with
  | [] => None
  | (k', v) :: rest => if bool_decide (k' = k) then Some v else assoc k rest
  end.

(** [v.k] for a property name [k] that is no array index. *)
Definition get_prop (v : value) (k : string) : completion value :=
  match v with
  | VUndefined | VNull =>
      Throw (TypeError ("Cannot read property '" +:+ k +:+ "' of " +:+
                        match v with VNull => "null" | _ => "undefined" end))
  | VObj props => Normal (default VUndefined (assoc k props))
  | VArr items =>
      Normal (if bool_decide (k = "length")
              then VNum (Z.of_nat (length items)) else VUndefined)
  | VStr s =>
      Normal (if bool_decide (k = "length")
              then VNum (Z.of_nat (String.length s)) else VUndefined)
  | _ => Normal VUndefined
  end.

Fixpoint char_at (s : string) (i : nat) : option string :=
  match s, i with
  | EmptyString, _ => None
  | String c _, O => Some (String c EmptyString)
  | String _ r, S j => char_at r j
  end.

(** [v[i]] for a literal index [i]. *)
Definition get_index (v : value) (i : nat) : completion value :=
  match v with
  | VUndefined | VNull =>
      Throw (TypeError ("Cannot read property '" +:+ pretty i +:+ "' of " +:+
                        match v with VNull => "null" | _ => "undefined" end))
  | VArr items => Normal (default VUndefined (items !! i))
  | VStr s => Normal (from_option VStr VUndefined (char_at s i))
  | VObj props => Normal (default VUndefined (assoc (pretty i) props))
  | _ => Normal VUndefined
  end.

(** [v.hasOwnProperty(k)], for a [v] with [typeof v === "object"] and a
    name [k] that is neither an index nor ["length"]. *)
Definition hasOwnProperty (v : value) (k : string) : completion bool :=
  match v with
  | VUndefined | VNull =>
      Throw (TypeError "Cannot read property 'hasOwnProperty' of null")
  | VObj props => Normal (bool_decide (is_Some (assoc k props)))
  | _ => Normal false
  end.

(** ["" + v], for the values that end up in messages. *)
Definition to_string (v : value) : string :=
  match v with
  | VUndefined => "undefined"
  | VNull => "null"
  | VBool true => "true"
  | VBool false => "false"
  | VNum n => pretty n
  | VStr s => s
  | _ => "[object Object]"
  end.

Definition lower_ascii (c : ascii) : ascii :=
  let n := nat_of_ascii c in
  if bool_decide (65 ≤ n ≤ 90)%nat then ascii_of_nat (n + 32) else c.

Fixpoint lower (s : string) : string :=
  match s with
  | EmptyString => EmptyString
  | String c r => String (lower_ascii c) (lower r)
  end.

(** [v.toLowerCase()]: a method of strings only. Letters outside ASCII
    are left as they are. *)
Definition toLowerCase (v : value) : completion value :=
  match v with
  | VStr s => Normal (VStr (lower s))
  | VUndefined | VNull =>
      Throw (TypeError "Cannot read property 'toLowerCase'")
  | _ => Throw (TypeError "toLowerCase is not a function")
  end.

(** Statements: they run on a state [S] (the fields of [this], and what
    the collaborators were told) and either complete or throw, leaving
    the state as it was at the [throw]. *)
Definition Eff (S A : Type) : Type := S → completion A * S.

#[export] Instance Eff_ret {S} : MRet (Eff S) := λ A a s, (Normal a, s).
#[export] Instance Eff_bind {S} : MBind (Eff S) := λ A B f c s,
  match c s with
  | (Normal a, s') => f a s'
  | (Throw e, s') => (Throw e, s')
  end.

Definition throw {S A} (e : exn) : Eff S A := λ s, (Throw e, s).
Definition lift {S A} (c : completion A) : Eff S A := λ s, (c, s).
Definition this {S} : Eff S S := λ s, (Normal s, s).
Definition modify {S} (f : S → S) : Eff S unit := λ s, (Normal tt, f s).

(** The properties of [Object.prototype], which every plain object
    ([{}], an object read from JSON) inherits: a read [o[name]] finds
    them on an object that has no property of that name itself. All are
    functions but [__proto__], an accessor that reads and replaces the
    prototype of the object. *)
Definition Object_prototype_names : list string :=
  [ "constructor"; "hasOwnProperty"; "isPrototypeOf"; "propertyIsEnumerable";
    "toLocaleString"; "toString"; "valueOf"; "__proto__";
    "__defineGetter__"; "__defineSetter__"; "__lookupGetter__";
    "__lookupSetter__" ].

(** A property that is absent ([undefined]), [null], or an object of a
    known shape. *)
Inductive nullable (A : Type) : Type :=
| Absent
| IsNull
| Object (a : A).
Arguments Absent {A}.
Arguments IsNull {A}.
Arguments Object {A} a.

End JS.

(** ** FORGE.Media *)

Module Media.
Import JS.

(** *** Configuration

    The shape of a [SceneMediaConfig]: [{ uid, type, source?: { url |
    levels[], format?, streaming? }, options? }]. The properties the code
    tests dynamically stay dynamic values. *)
Record SceneMediaSourceConfig : Type := mkSource {
  url : value;
  levels : value;
  format : value;
  streaming : value;
}.

Record SceneMediaConfig : Type := mkConfig {
  uid : value;
  type : value;
  source : nullable SceneMediaSourceConfig;
  options : value;
}.

(** *** Collaborators

    Constants and oracles of the player that the class reads and that are
    declared elsewhere: the [FORGE.MediaType], [FORGE.MediaFormat] and
    [FORGE.VideoFormat] string constants, the device check and the
    visibility state of the document. *)
Record Host : Type := mkHost {
  MediaType_UNDEFINED : string;
  MediaType_IMAGE : string;
  MediaType_VIDEO : string;
  MediaType_GRID : string;
  MediaFormat_EQUIRECTANGULAR : string;
  MediaFormat_CUBE : string;
  MediaFormat_FLAT : string;
  VideoFormat_DASH : string;
  (* FORGE.Device.check(device): whether the current device meets the
     requirement a level declares; it answers true or false *)
  Device_check : value → bool;
  (* document[FORGE.Device.visibilityState] *)
  document_visibilityState : value;
}.

(** The three media types the dispatch distinguishes are different
    strings. *)
Definition distinct_types (h : Host) : Prop :=
  MediaType_GRID h ≠ MediaType_IMAGE h ∧
  MediaType_GRID h ≠ MediaType_VIDEO h ∧
  MediaType_IMAGE h ≠ MediaType_VIDEO h.

(** [viewer.story.scene], as far as the class asks it. *)
Record Viewer : Type := mkViewer {
  scene_hasSoundTarget : value → bool;
  scene_isAmbisonic : bool;
}.

(** Modelled from the spec: FORGE.Image, FORGE.VideoHTML5 and
    FORGE.VideoDash are not in src. A playable source exposes
    [load(urlOrList)], a one-shot load-complete or metadata-loaded signal,
    mutable [volume], [loop], [currentTime], [autoPause], [autoResume],
    and [play()] and [destroy()]. The record keeps what the constructor
    and [load] were given, the listener registered with [addOnce], and
    the fields the class writes. *)
Inductive DisplayClass : Type := Image | VideoDash | VideoHTML5.

Inductive Handler : Type := OnImageLoadComplete | OnLoadedMetaDataHandler.

Record DisplayObject : Type := mkDisplayObject {
  do_class : DisplayClass;
  do_key : value;
  do_url : value;
  do_ambisonic : bool;
  do_listener : option Handler;
  do_volume : value;
  do_loop : value;
  do_currentTime : value;
  do_autoPause : value;
  do_autoResume : value;
  do_playing : bool;
}.

(** Modelled from the spec: FORGE.EventDispatcher is not in src. The
    readiness signal is a memoized notification channel; the class only
    constructs it, calls [dispatch()] and [destroy()] on it. *)
Record EventDispatcher : Type := mkEventDispatcher {
  memorize : bool;
}.

(** *** The object

    The fields of a [FORGE.Media]. [_config] holds the configuration
    object itself: the constructor stores the caller's object, and
    [_parseConfig] reads and writes that same object through [config] and
    through [source] (which is [config.source]), so the model keeps one
    copy here and every access goes to it. Two ghost fields record what
    the collaborators were told: [fired] counts the calls of
    [_onLoadComplete.dispatch()], [released] lists the display objects
    whose [destroy()] was called. *)
Record t : Type := mkMedia {
  _viewer : option Viewer;
  _config : nullable SceneMediaConfig;
  _uid : value;
  _type : value;
  _options : value;
  _displayObject : option DisplayObject;
  _loaded : bool;
  _onLoadComplete : option EventDispatcher;
  fired : nat;
  released : list DisplayObject;
}.

Abbreviation M := (Eff t).

(** Field assignments [this._x = v]. *)
Definition set_viewer (v : option Viewer) (m : t) : t :=
  mkMedia v (_config m) (_uid m) (_type m) (_options m) (_displayObject m)
          (_loaded m) (_onLoadComplete m) (fired m) (released m).
Definition set_config (c : nullable SceneMediaConfig) (m : t) : t :=
  mkMedia (_viewer m) c (_uid m) (_type m) (_options m) (_displayObject m)
          (_loaded m) (_onLoadComplete m) (fired m) (released m).
Definition set_uid (v : value) (m : t) : t :=
  mkMedia (_viewer m) (_config m) v (_type m) (_options m) (_displayObject m)
          (_loaded m) (_onLoadComplete m) (fired m) (released m).
Definition set_type (v : value) (m : t) : t :=
  mkMedia (_viewer m) (_config m) (_uid m) v (_options m) (_displayObject m)
          (_loaded m) (_onLoadComplete m) (fired m) (released m).
Definition set_options (v : value) (m : t) : t :=
  mkMedia (_viewer m) (_config m) (_uid m) (_type m) v (_displayObject m)
          (_loaded m) (_onLoadComplete m) (fired m) (released m).
Definition set_displayObject (d : option DisplayObject) (m : t) : t :=
  mkMedia (_viewer m) (_config m) (_uid m) (_type m) (_options m) d
          (_loaded m) (_onLoadComplete m) (fired m) (released m).
Definition set_loaded (b : bool) (m : t) : t :=
  mkMedia (_viewer m) (_config m) (_uid m) (_type m) (_options m)
          (_displayObject m) b (_onLoadComplete m) (fired m) (released m).
Definition set_onLoadComplete (e : option EventDispatcher) (m : t) : t :=
  mkMedia (_viewer m) (_config m) (_uid m) (_type m) (_options m)
          (_displayObject m) (_loaded m) e (fired m) (released m).
Definition count_release (d : DisplayObject) (m : t) : t :=
  mkMedia (_viewer m) (_config m) (_uid m) (_type m) (_options m)
          (_displayObject m) (_loaded m) (_onLoadComplete m) (fired m)
          (d :: released m).
Definition count_dispatch (m : t) : t :=
  mkMedia (_viewer m) (_config m) (_uid m) (_type m) (_options m)
          (_displayObject m) (_loaded m) (_onLoadComplete m) (S (fired m))
          (released m).

(** Writes to the source object, [source.format = v] and
    [source.url = v]: they land in the configuration object the media
    holds. *)
Definition with_format (v : value) (s : SceneMediaSourceConfig) :=
  mkSource (url s) (levels s) v (streaming s).
Definition with_url (v : value) (s : SceneMediaSourceConfig) :=
  mkSource v (levels s) (format s) (streaming s).

Definition update_source (f : SceneMediaSourceConfig → SceneMediaSourceConfig)
    (c : nullable SceneMediaConfig) : nullable SceneMediaConfig :=
  match c with
  | Object c =>
      match source c with
      | Object s => Object (mkConfig (uid c) (type c) (Object (f s)) (options c))
      | _ => Object c
      end
  | _ => c
  end.

Definition write_source (f : SceneMediaSourceConfig → SceneMediaSourceConfig)
    : M unit :=
  modify (λ m, set_config (update_source f (_config m)) m).

(** The object [source] refers to, as it is now. A property read on it
    throws when [config.source] is [undefined] or [null]. *)
Definition read_source : M SceneMediaSourceConfig := λ m,
  match _config m with
  | Object c =>
      match source c with
      | Object s => (Normal s, m)
      | IsNull => (Throw (TypeError "Cannot read property of null"), m)
      | Absent => (Throw (TypeError "Cannot read property of undefined"), m)
      end
  | _ => (Throw (TypeError "Cannot read property of undefined"), m)
  end.

(** Writes to a property of [this._displayObject] and calls of its
    methods; they throw on [null]. *)
Definition on_displayObject (f : DisplayObject → DisplayObject) : M unit := λ m,
  match _displayObject m with
  | Some d => (Normal tt, set_displayObject (Some (f d)) m)
  | None => (Throw (TypeError "Cannot read property of null"), m)
  end.

Definition do_set_url v d :=
  mkDisplayObject (do_class d) (do_key d) v (do_ambisonic d) (do_listener d)
    (do_volume d) (do_loop d) (do_currentTime d) (do_autoPause d)
    (do_autoResume d) (do_playing d).
Definition do_set_listener l d :=
  mkDisplayObject (do_class d) (do_key d) (do_url d) (do_ambisonic d) l
    (do_volume d) (do_loop d) (do_currentTime d) (do_autoPause d)
    (do_autoResume d) (do_playing d).
Definition do_set_volume v d :=
  mkDisplayObject (do_class d) (do_key d) (do_url d) (do_ambisonic d)
    (do_listener d) v (do_loop d) (do_currentTime d) (do_autoPause d)
    (do_autoResume d) (do_playing d).
Definition do_set_loop v d :=
  mkDisplayObject (do_class d) (do_key d) (do_url d) (do_ambisonic d)
    (do_listener d) (do_volume d) v (do_currentTime d) (do_autoPause d)
    (do_autoResume d) (do_playing d).
Definition do_set_currentTime v d :=
  mkDisplayObject (do_class d) (do_key d) (do_url d) (do_ambisonic d)
    (do_listener d) (do_volume d) (do_loop d) v (do_autoPause d)
    (do_autoResume d) (do_playing d).
Definition do_set_autoPause v d :=
  mkDisplayObject (do_class d) (do_key d) (do_url d) (do_ambisonic d)
    (do_listener d) (do_volume d) (do_loop d) (do_currentTime d) v
    (do_autoResume d) (do_playing d).
Definition do_set_autoResume v d :=
  mkDisplayObject (do_class d) (do_key d) (do_url d) (do_ambisonic d)
    (do_listener d) (do_volume d) (do_loop d) (do_currentTime d)
    (do_autoPause d) v (do_playing d).
Definition do_play d :=
  mkDisplayObject (do_class d) (do_key d) (do_url d) (do_ambisonic d)
    (do_listener d) (do_volume d) (do_loop d) (do_currentTime d)
    (do_autoPause d) (do_autoResume d) true.

(** [new FORGE.Image(viewer, {key, url})], [new FORGE.VideoDash(viewer,
    key)], [new FORGE.VideoHTML5(viewer, key, null, null, ambisonic)]. *)
Definition new_Image (key url : value) : DisplayObject :=
  mkDisplayObject Image key url false None
    VUndefined VUndefined VUndefined VUndefined VUndefined false.
Definition new_VideoDash (key : value) : DisplayObject :=
  mkDisplayObject VideoDash key VUndefined false None
    VUndefined VUndefined VUndefined VUndefined VUndefined false.
Definition new_VideoHTML5 (key : value) (ambisonic : bool) : DisplayObject :=
  mkDisplayObject VideoHTML5 key VUndefined ambisonic None
    VUndefined VUndefined VUndefined VUndefined VUndefined false.

Section WithHost.
Variable host : Host.

(** [FORGE.Media.prototype._notifyLoadComplete] *)
Definition _notifyLoadComplete : M unit :=
  modify (set_loaded true);;
  m ← this;
  match _onLoadComplete m with
  | Some _ => modify count_dispatch
  | None => throw (TypeError "Cannot read property 'dispatch' of null")
  end.

(** The image branch of [_parseConfig]. *)
Definition parse_image : M unit :=
  source ← read_source;
  if negb (truthy (url source))
  then throw (ThrownString "Multi resolution not implemented yet !")
  else
    m ← this;
    (if strict_eq_str (format source) (MediaFormat_EQUIRECTANGULAR host)
     then modify (set_displayObject (Some (new_Image (_uid m) (url source))))
     else if strict_eq_str (format source) (MediaFormat_CUBE host)
             || strict_eq_str (format source) (MediaFormat_FLAT host)
     then modify (set_displayObject (Some (new_Image (_uid m) (url source))))
     else throw (ThrownString "Media format not supported"));;
    on_displayObject (do_set_listener (Some OnImageLoadComplete)).

(** The loop over [source.levels]: a level the device check refuses is
    passed over, the url of any other level is pushed on [source.url]. *)
Definition push_url (u : value) : M unit :=
  source ← read_source;
  match url source with
  | VArr items => write_source (with_url (VArr (items ++ [u])))
  | _ => throw (TypeError "source.url.push is not a function")
  end.

Fixpoint levels_loop (lvls : list value) : M unit :=
  match lvls with
  | [] => mret tt
  | level :: rest =>
      device ← lift (get_prop level "device");
      if negb (Device_check host device)
      then levels_loop rest
      else
        u ← lift (get_prop level "url");
        push_url u;;
        levels_loop rest
  end.

(** Lines 175-187: with a [levels] array, [source.url] becomes the list
    of the urls of the levels the device supports. *)
Definition collect_level_urls : M unit :=
  source ← read_source;
  match levels source with
  | VArr lvls => write_source (with_url (VArr []));; levels_loop lvls
  | _ => mret tt
  end.

(** Lines 189-211: nothing happens for an empty list; otherwise the video
    object is constructed, told to load [source.url], and listened to. *)
Definition load_video : M unit :=
  source ← read_source;
  len ← (if bool_decide (typeof (url source) ≠ "string")
         then lift (get_prop (url source) "length")
         else mret VUndefined);
  if bool_decide (typeof (url source) ≠ "string") && strict_eq_num len 0
  then mret tt
  else
    m ← this;
    dash ← (if bool_decide (typeof (streaming source) ≠ "undefined")
            then
              l ← lift (toLowerCase (streaming source));
              mret (strict_eq_str l (VideoFormat_DASH host))
            else mret false);
    (if dash : bool
     then modify (set_displayObject (Some (new_VideoDash (_uid m))))
     else
       match _viewer m with
       | Some viewer =>
           modify (set_displayObject (Some (new_VideoHTML5 (_uid m)
             (scene_hasSoundTarget viewer (_uid m) && scene_isAmbisonic viewer))))
       | None => throw (TypeError "Cannot read property 'story' of null")
       end);;
    on_displayObject (do_set_url (url source));;
    on_displayObject (do_set_listener (Some OnLoadedMetaDataHandler)).

(** The video branch of [_parseConfig]. *)
Definition parse_video : M unit :=
  collect_level_urls;;
  load_video.

(** [FORGE.Media.prototype._parseConfig], called on [this._config].
    [config] is the object the media holds; line 116 changes the format of
    its source and not whether it has one, so the tests of lines 119-125
    read [type] and [source] off [config]. *)
Definition _parseConfig : M unit :=
  m ← this;
  match _config m with
  | Absent | IsNull =>
      modify (set_type (VStr (MediaType_UNDEFINED host)));;
      _notifyLoadComplete
  | Object config =>
      modify (set_uid (uid config));;
      modify (set_options (if bool_decide (typeof (options config) ≠ "undefined")
                           then options config else VNull));;
      modify (set_type (type config));;
      match source config with
      | Absent => mret tt
      | IsNull => throw (TypeError "Cannot read property 'format' of null")
      | Object s =>
          if bool_decide (typeof (format s) = "undefined")
          then write_source (with_format (VStr (MediaFormat_FLAT host)))
          else mret tt
      end;;
      if strict_eq_str (type config) (MediaType_GRID host)
      then _notifyLoadComplete
      else
        match source config with
        | Absent | IsNull => mret tt
        | Object _ =>
            if strict_eq_str (type config) (MediaType_IMAGE host)
            then parse_image
            else if strict_eq_str (type config) (MediaType_VIDEO host)
            then parse_video
            else mret tt
        end
  end.

(** [FORGE.Media.prototype._boot] *)
Definition _boot : M unit :=
  modify (set_onLoadComplete (Some (mkEventDispatcher true)));;
  _parseConfig.

(** The constructor [new FORGE.Media(viewer, config)]: the completion of
    the constructor body and the object as the body left it. *)
Definition new (viewer : Viewer) (config : nullable SceneMediaConfig)
    : completion unit * t :=
  _boot (mkMedia (Some viewer) config VNull (VStr "") VNull None false None 0 []).

(** [FORGE.Media.prototype._onImageLoadComplete] *)
Definition _onImageLoadComplete : M unit := _notifyLoadComplete.

(** [FORGE.Media.prototype._onLoadedMetaDataHandler] *)
Definition _onLoadedMetaDataHandler : M unit :=
  m ← this;
  (if negb (is_null (_options m))
   then
     volume ← lift (get_prop (_options m) "volume");
     on_displayObject (do_set_volume
       (if bool_decide (typeof volume = "number") then volume else VNum 1));;
     loop ← lift (get_prop (_options m) "loop");
     on_displayObject (do_set_loop
       (if bool_decide (typeof loop = "boolean") then loop else VBool true));;
     startTime ← lift (get_prop (_options m) "startTime");
     on_displayObject (do_set_currentTime
       (if bool_decide (typeof startTime = "number") then startTime else VNum 0));;
     autoPlay ← lift (get_prop (_options m) "autoPlay");
     (if strict_eq_bool autoPlay true
         && strict_eq_str (document_visibilityState host) "visible"
      then on_displayObject do_play
      else mret tt);;
     autoPause ← lift (get_prop (_options m) "autoPause");
     on_displayObject (do_set_autoPause autoPause);;
     autoResume ← lift (get_prop (_options m) "autoResume");
     on_displayObject (do_set_autoResume autoResume)
   else mret tt);;
  _notifyLoadComplete.

End WithHost.

(** [FORGE.Media.prototype.destroy] *)
Definition destroy : M unit :=
  m ← this;
  match _displayObject m with
  | Some d => modify (count_release d);; modify (set_displayObject None)
  | None => mret tt
  end;;
  m ← this;
  match _onLoadComplete m with
  | Some _ => modify (set_onLoadComplete None)
  | None => mret tt
  end;;
  modify (set_viewer None).

(** The read-only accessors. *)
Definition config (m : t) : nullable SceneMediaConfig := _config m.
Definition displayObject (m : t) : option DisplayObject := _displayObject m.
Definition loaded (m : t) : bool := _loaded m.
Definition onLoadComplete (m : t) : option EventDispatcher := _onLoadComplete m.

(** *** Life of a media after construction

    Two things happen to a constructed media: the display object delivers
    its one-shot signal to the listener that [addOnce] registered (the
    listener is removed and the handler runs), or the owner calls
    [destroy()]. A display object that was destroyed delivers nothing. *)
Definition deliver (host : Host) (h : Handler) : M unit :=
  on_displayObject (do_set_listener None);;
  match h with
  | OnImageLoadComplete => _onImageLoadComplete
  | OnLoadedMetaDataHandler => _onLoadedMetaDataHandler host
  end.

Inductive step (host : Host) : t → t → Prop :=
| step_signal m d h :
    _displayObject m = Some d →
    do_listener d = Some h →
    step host m (deliver host h m).2
| step_destroy m :
    step host m (destroy m).2.

(** *** The candidate urls, as the specification words them

    The urls of the levels whose device predicate holds, in the order of
    the levels array. *)
Definition prop_of (k : string) (v : value) : value :=
  match get_prop v k with Normal x => x | Throw _ => VUndefined end.

Definition surviving_urls (host : Host) (lvls : list value) : list value :=
  prop_of "url" <$> filter (λ l, Device_check host (prop_of "device" l) = true) lvls.

(** A statement that leaves the configuration object as it finds it. *)
Definition keeps_config {A} (c : M A) : Prop :=
  ∀ m, _config (c m).2 = _config m.

(** The media when lines 106-117 of [_parseConfig] have run, [c] being
    the configuration object as line 116 left it. *)
Definition classified (viewer : Viewer) (c : SceneMediaConfig) : t :=
  mkMedia (Some viewer) (Object c) (uid c) (type c)
    (if bool_decide (typeof (options c) ≠ "undefined") then options c else VNull)
    None false (Some (mkEventDispatcher true)) 0 [].

(** [source] once line 116 has defaulted its format. *)
Definition defaulted (host : Host) (s : SceneMediaSourceConfig)
    : SceneMediaSourceConfig :=
  if bool_decide (typeof (format s) = "undefined")
  then with_format (VStr (MediaFormat_FLAT host)) s else s.

(** [null] and [undefined]: the values a property read throws on. *)
Definition nullish (v : value) : bool :=
  match v with VUndefined | VNull => true | _ => false end.

(** The levels the loop of lines 178-186 gets through: those before the
    first that is [null] or [undefined], where reading its [device]
    throws. *)
Fixpoint leading_levels (lvls : list value) : list value :=
  match lvls with
  | [] => []
  | level :: rest => if nullish level then [] else level :: leading_levels rest
  end.

(** *** Parts of a media that a statement leaves alone *)

(** A statement that leaves the part [f] of the media as it finds it. *)
Definition keeps_part {A X} (f : t → X) (c : M A) : Prop :=
  ∀ m, f (c m).2 = f m.

(** What the notification reads and writes. *)
Definition signal_state (m : t)
    : bool * nat * option EventDispatcher * value :=
  (_loaded m, fired m, _onLoadComplete m, _options m).

(** Lines 234-244 as a function of the display object: what the
    metadata handler makes of it for options [o] that are not [null]. *)
Definition with_options (host : Host) (o : value) (d : DisplayObject)
    : DisplayObject :=
  let volume := prop_of "volume" o in
  let loop := prop_of "loop" o in
  let startTime := prop_of "startTime" o in
  let d1 := do_set_volume
              (if bool_decide (typeof volume = "number") then volume else VNum 1) d in
  let d2 := do_set_loop
              (if bool_decide (typeof loop = "boolean") then loop else VBool true) d1 in
  let d3 := do_set_currentTime
              (if bool_decide (typeof startTime = "number") then startTime else VNum 0)
              d2 in
  let d4 := if strict_eq_bool (prop_of "autoPlay" o) true
               && strict_eq_str (document_visibilityState host) "visible"
            then do_play d3 else d3 in
  do_set_autoResume (prop_of "autoResume" o)
    (do_set_autoPause (prop_of "autoPause" o) d4).

(** The readiness bookkeeping of a media: [onLoadComplete] was
    dispatched at most once, the loaded flag says whether it was, the
    options are never [undefined], a media with a display object still
    has its dispatcher, and once the dispatch happened no listener is
    left on the display object. *)
Record consistent (m : t) : Prop := mkConsistent {
  fired_once : (fired m ≤ 1)%nat;
  loaded_iff_fired : _loaded m = bool_decide (fired m = 1);
  options_defined : typeof (_options m) ≠ "undefined";
  dispatcher_alive : is_Some (_displayObject m) → is_Some (_onLoadComplete m);
  no_listener_left :
    fired m = 1 → ∀ d, _displayObject m = Some d → do_listener d = None;
}.

End Media.

(** ** FORGE.PostProcessing *)

Module PostProcessing.
Import JS.

(** An effect descriptor [{ uid, type, params }]; [params] lists the
    declared parameters in the order [for (param in fx.params)] visits
    them. *)
Record FX : Type := mkFX {
  uid : value;
  type : string;
  params : list (string * value);
}.

(** Modelled from the spec: FORGE.ShaderPass and the THREE effect
    catalog are not in src. A pipeline stage wraps the uid, the type name
    and the catalog's effect; it may expose a uniform surface, a map from
    uniform names to slots, and [slot.value = v] overwrites the value held
    by an existing slot. The surface of a new stage is the one the effect
    declares.

    The surface is what the read [pass.uniforms[name]] of line 145 sees:
    the map has an entry for every name that read resolves, with the
    [value] the stage holds for it. When [pass.uniforms] is a plain
    object these are the uniforms of the effect and, besides, the
    properties the object inherits from [Object.prototype]
    ([plain_uniforms] below); for an inherited name the entry holds what
    the binding of this stage wrote in the [value] property of the
    inherited object, [undefined] when it wrote nothing. *)
Record Shader : Type := mkShader {
  shader_uniforms : option (gmap string value);
}.

Record ShaderPass : Type := mkShaderPass {
  pass_uid : value;
  pass_type : string;
  pass_shader : Shader;
  uniforms : option (gmap string value);
}.

Definition new_ShaderPass (uid : value) (type : string) (shader : Shader)
    : ShaderPass :=
  mkShaderPass uid type shader (shader_uniforms shader).

(** The surface of a uniforms object that is a plain object with the
    slots [declared]: those slots, and the names inherited from
    [Object.prototype] that no slot hides. *)
Definition plain_uniforms (declared : gmap string value) : gmap string value :=
  declared ∪ list_to_map ((λ name, (name, VUndefined)) <$> Object_prototype_names).

(** The global [THREE]: its own properties, by name. *)
Record Host : Type := mkHost {
  THREE : gmap string Shader;
}.

(** The state of a [parseShaderPasses] call that a caller can see next to
    its result: the messages given to [this.warn], oldest first. *)
Abbreviation W := (Eff (list string)).

Definition warn (msg : string) : W unit := modify (λ log, (log ++ [msg])%list).

(** Lines 117-142: the [switch] on [paramValue.type], [args] being
    [paramValue.args]; a type tag without case leaves [value] as it was
    initialized, to [paramValue]. *)
Definition build_typed (paramValue tag args : value) : completion value :=
  if strict_eq_str tag "THREE.Color" then
    match get_prop args "length" with
    | Throw e => Throw e
    | Normal len =>
        if strict_eq_num len 3 then
          match get_index args 0, get_index args 1, get_index args 2 with
          | Normal a0, Normal a1, Normal a2 => Normal (VColor3 a0 a1 a2)
          | Throw e, _, _ | _, Throw e, _ | _, _, Throw e => Throw e
          end
        else if bool_decide (typeof args = "string")
                || bool_decide (typeof args = "number")
        then Normal (VColor1 args)
        else Throw (ThrownError
               ("Cannot create THREE.Color with " +:+ typeof args +:+
                " (length " +:+ to_string len +:+ ")"))
    end
  else if strict_eq_str tag "THREE.Vector2" then
    match get_index args 0, get_index args 1 with
    | Normal a0, Normal a1 => Normal (VVector2 a0 a1)
    | Throw e, _ | _, Throw e => Throw e
    end
  else if strict_eq_str tag "THREE.Vector3" then
    match get_index args 0, get_index args 1, get_index args 2 with
    | Normal a0, Normal a1, Normal a2 => Normal (VVector3 a0 a1 a2)
    | Throw e, _, _ | _, Throw e, _ | _, _, Throw e => Throw e
    end
  else Normal paramValue.

(** Line 115: [typeof paramValue === "object" &&
    paramValue.hasOwnProperty("type") && paramValue.hasOwnProperty("args")] *)
Definition is_object_to_build (paramValue : value) : completion bool :=
  if bool_decide (typeof paramValue = "object") then
    match hasOwnProperty paramValue "type" with
    | Throw e => Throw e
    | Normal false => Normal false
    | Normal true => hasOwnProperty paramValue "args"
    end
  else Normal false.

(** Lines 112-143: the value to bind for a declared parameter value. *)
Definition resolve_param (paramValue : value) : completion value :=
  match is_object_to_build paramValue with
  | Throw e => Throw e
  | Normal false => Normal paramValue
  | Normal true =>
      match get_prop paramValue "args", get_prop paramValue "type" with
      | Throw e, _ | _, Throw e => Throw e
      | Normal args, Normal tag => build_typed paramValue tag args
      end
  end.

(** [fx.params[param]] *)
Definition declared (fx : FX) (param : string) : value :=
  default VUndefined (assoc param (params fx)).

(** Lines 111-145: the body of the loop over the declared parameters,
    for the parameter named [param]. [u] is the surface as the read
    [pass.uniforms[param]] sees it, inherited names included: the write of
    line 145 throws only for a name that read does not resolve. On a
    plain object the name [__proto__] reads [Object.prototype] itself,
    and the write gives it a property [value] that every object then
    inherits; the map records that write under [__proto__] and does not
    follow the inherited [value], so the statements about plain uniforms
    set a parameter of that name apart. *)
Definition bind_param (fx : FX) (param : string) (u : gmap string value)
    : completion (gmap string value) :=
  let paramValue := declared fx param in
  match resolve_param paramValue with
  | Throw e => Throw e
  | Normal value =>
      match u !! param with
      | Some _ => Normal (<[param := value]> u)
      | None =>
          Throw (TypeError ("Cannot set property 'value' of undefined"))
      end
  end.

(** Lines 109-146: [for (var param in fx.params)]. *)
Fixpoint bind_params (fx : FX) (names : list string) (u : gmap string value)
    : completion (gmap string value) :=
  match names with
  | [] => Normal u
  | param :: rest =>
      match bind_param fx param u with
      | Throw e => Throw e
      | Normal u' => bind_params fx rest u'
      end
  end.

(** Lines 104-147: the stage of a descriptor whose type the catalog
    has. *)
Definition build_pass (shader : Shader) (fx : FX) : completion ShaderPass :=
  let pass := new_ShaderPass (uid fx) (type fx) shader in
  match uniforms pass with
  | Some u =>
      match bind_params fx (params fx).*1 u with
      | Throw e => Throw e
      | Normal u' =>
          Normal (mkShaderPass (pass_uid pass) (pass_type pass)
                               (pass_shader pass) (Some u'))
      end
  | None => Normal pass
  end.

(** The message of line 100. *)
Definition unknown_effect (fx : FX) : string :=
  "Unknown image effect (" +:+ type fx +:+ ")".

Section WithHost.
Variable host : Host.

(** Lines 92-150: the loop over the descriptors, [shaderPasses] being
    the passes pushed so far. *)
Fixpoint passes_loop (fxConfig : list FX) (shaderPasses : list ShaderPass)
    : W (list ShaderPass) :=
  match fxConfig with
  | [] => mret shaderPasses
  | fx :: rest =>
      match THREE host !! type fx with
      | None =>
          warn (unknown_effect fx);;
          passes_loop rest shaderPasses
      | Some shader =>
          pass ← lift (build_pass shader fx);
          passes_loop rest (shaderPasses ++ [pass])%list
      end
  end.

(** [FORGE.PostProcessing.prototype.parseShaderPasses] *)
Definition parseShaderPasses (fxConfig : nullable (list FX))
    : W (list ShaderPass) :=
  match fxConfig with
  | Absent | IsNull => mret []
  | Object fxs =>
      if bool_decide (length fxs = 0) then mret []
      else passes_loop fxs []
  end.

End WithHost.

(** [pass.uniforms[name].value], when the pass has that slot. *)
Definition slot_value (name : string) (pass : ShaderPass) : option value :=
  uniforms pass ≫= (.!! name).

(** *** The output, as the specification words it

    The stages of the descriptors the catalog resolves, in input order;
    compiled one after the other, the first that throws ending the
    compilation. The descriptors it does not resolve are the skipped
    ones. *)
Definition resolvable_stages (host : Host) (fxs : list FX)
    : list (completion ShaderPass) :=
  omap (λ fx, (λ shader, build_pass shader fx) <$> THREE host !! type fx) fxs.

Definition skipped (host : Host) (fxs : list FX) : list FX :=
  filter (λ fx, ¬ is_Some (THREE host !! type fx)) fxs.

Fixpoint all_stages (cs : list (completion ShaderPass))
    : completion (list ShaderPass) :=
  match cs with
  | [] => Normal []
  | Throw e :: _ => Throw e
  | Normal p :: rest =>
      match all_stages rest with
      | Normal ps => Normal (p :: ps)
      | Throw e => Throw e
      end
  end.

(** *** The object and its sets

    An FX configuration [{ uid, fxSets: [ { uid, set } ] }]; the uid of a
    set is the property name it is stored under. *)
Record FXSet : Type := mkFXSet {
  set_uid : string;
  set : nullable (list FX);
}.

Record FXConfig : Type := mkFXConfig {
  config_uid : value;
  fxSets : nullable (list FXSet);
}.

(** What the object [_sets] inherits from: [Object.prototype], as every
    object that [{}] creates (line 51); and, once line 70 has assigned to
    its property ["__proto__"], the set assigned (an array), or nothing
    (after [null]). *)
Inductive prototype : Type :=
| ObjectPrototype
| NullPrototype
| ArrayPrototype (items : list FX).

(** The object [_sets]: the sets stored as its own properties, and its
    prototype. *)
Record SetsObject : Type := mkSets {
  own : gmap string (nullable (list FX));
  proto : prototype;
}.

(** What the read [_sets[uid]] gives: a set as it was stored, or
    [undefined]; a property of [Object.prototype] (a function, and for
    ["__proto__"] the prototype itself); or the property of that name of
    the array the object inherits from (an element, the length, a method
    of arrays, or [undefined]). *)
Inductive found : Type :=
| Stored (s : nullable (list FX))
| Builtin (name : string)
| ArrayProperty (items : list FX) (name : string).

(** [sets[uid]]: an own property first, then the prototype. Read
    through an array, ["__proto__"] is the array. *)
Definition sets_read (sets : SetsObject) (uid : string) : found :=
  match own sets !! uid with
  | Some s => Stored s
  | None =>
      match proto sets with
      | ObjectPrototype =>
          if bool_decide (uid ∈ Object_prototype_names)
          then Builtin uid else Stored Absent
      | NullPrototype => Stored Absent
      | ArrayPrototype items =>
          if bool_decide (uid = "__proto__")
          then Stored (Object items) else ArrayProperty items uid
      end
  end.

(** [sets[uid] = s]: an own property is created or overwritten, except
    for ["__proto__"] on an object that still inherits the accessor of
    that name: there an array or [null] becomes the prototype, and
    [undefined] is ignored. *)
Definition sets_write (sets : SetsObject) (uid : string)
    (s : nullable (list FX)) : SetsObject :=
  if bool_decide (uid = "__proto__") then
    match proto sets, s with
    | NullPrototype, _ => mkSets (<[uid := s]> (own sets)) (proto sets)
    | _, Object items => mkSets (own sets) (ArrayPrototype items)
    | _, IsNull => mkSets (own sets) NullPrototype
    | _, Absent => sets
    end
  else mkSets (<[uid := s]> (own sets)) (proto sets).

(** The fields of a [FORGE.PostProcessing]; [_sets] is [null] or an
    object used as a map from set uids to sets. *)
Record t : Type := mkPostProcessing {
  _viewer : option Media.Viewer;
  _config : option FXConfig;
  _sets : option SetsObject;
  _uid : value;
}.

Abbreviation P := (Eff t).

Definition with_viewer (v : option Media.Viewer) (p : t) : t :=
  mkPostProcessing v (_config p) (_sets p) (_uid p).
Definition with_config (c : option FXConfig) (p : t) : t :=
  mkPostProcessing (_viewer p) c (_sets p) (_uid p).
Definition with_sets (s : option SetsObject) (p : t) : t :=
  mkPostProcessing (_viewer p) (_config p) s (_uid p).
Definition with_uid (u : value) (p : t) : t :=
  mkPostProcessing (_viewer p) (_config p) (_sets p) u.

(** [FORGE.PostProcessing.prototype._boot]: [this._sets = {}] *)
Definition _boot : P unit := modify (with_sets (Some (mkSets ∅ ObjectPrototype))).

(** The constructor [new FORGE.PostProcessing(viewer)]. *)
Definition new (viewer : Media.Viewer) : completion unit * t :=
  _boot (mkPostProcessing (Some viewer) None None VNull).

(** Line 70: [this._sets[fxConfig.uid] = fxConfig.set] *)
Definition store_set (fxConfig : FXSet) : P unit :=
  p ← this;
  match _sets p with
  | Some sets =>
      modify (with_sets (Some (sets_write sets (set_uid fxConfig) (set fxConfig))))
  | None => throw (TypeError "Cannot set property of null")
  end.

(** Lines 67-71: the loop over [config.fxSets]. *)
Fixpoint sets_loop (fxSets : list FXSet) : P unit :=
  match fxSets with
  | [] => mret tt
  | fxConfig :: rest => store_set fxConfig;; sets_loop rest
  end.

(** [FORGE.PostProcessing.prototype._parseConfig] *)
Definition _parseConfig (config : FXConfig) : P unit :=
  modify (with_uid (config_uid config));;
  match fxSets config with
  | Absent => mret tt
  | IsNull => throw (TypeError "Cannot read property 'length' of null")
  | Object sets =>
      if bool_decide (0 < length sets)%nat then sets_loop sets else mret tt
  end.

(** [FORGE.PostProcessing.prototype.getFxSetByUID]: [this._sets[uid]] *)
Definition getFxSetByUID (uid : string) : P found :=
  p ← this;
  match _sets p with
  | Some sets => mret (sets_read sets uid)
  | None => throw (TypeError "Cannot read property of null")
  end.

(** [FORGE.PostProcessing.prototype.addConfig] *)
Definition addConfig (config : FXConfig) : P unit :=
  modify (with_config (Some config));;
  _parseConfig config.

(** [FORGE.PostProcessing.prototype.destroy] *)
Definition destroy : P unit :=
  modify (with_viewer None);;
  modify (with_sets None).

(** The set the configuration list [fxSets] gives for [uid]: the one of
    its last entry with that uid. *)
Definition last_set (uid : string) (fxSets : list FXSet)
    : option (nullable (list FX)) :=
  set <$> last (filter (λ e, set_uid e = uid) fxSets).

End PostProcessing.

(** ** Sample collaborators and configurations

    A host with the string constants of the player, a device check that
    refuses device ["A"], a scene without sound targets, and an effect
    catalog with one effect that has a [color] and an [amount] uniform,
    its uniforms being a plain object, and one that exposes no uniform
    surface. *)

Module Sample.
Import JS.

Definition host : Media.Host :=
  Media.mkHost "undefined" "image" "video" "grid" "equi" "cube" "flat" "dash"
    (λ device, negb (strict_eq_str device "A")) (VStr "visible").

Definition viewer : Media.Viewer := Media.mkViewer (λ _, false) false.

Definition no_source : Media.SceneMediaSourceConfig :=
  Media.mkSource VUndefined VUndefined VUndefined VUndefined.

(* { uid: "g", type: "grid", source: null } *)
Definition grid_null_source : Media.SceneMediaConfig :=
  Media.mkConfig (VStr "g") (VStr "grid") IsNull VUndefined.

(* { uid: "g", type: "grid" } *)
Definition grid : Media.SceneMediaConfig :=
  Media.mkConfig (VStr "g") (VStr "grid") Absent VUndefined.

(* { uid: "i", type: "image", source: { url: "a.jpg" } } *)
Definition image : Media.SceneMediaConfig :=
  Media.mkConfig (VStr "i") (VStr "image")
    (Object (Media.with_url (VStr "a.jpg") no_source)) VUndefined.

(* { uid: "i", type: "image", source: { format: "equi" } } *)
Definition image_no_url : Media.SceneMediaConfig :=
  Media.mkConfig (VStr "i") (VStr "image")
    (Object (Media.with_format (VStr "equi") no_source)) VUndefined.

(* { uid: "v", type: "video", source: { url: "" } } *)
Definition video_empty_string : Media.SceneMediaConfig :=
  Media.mkConfig (VStr "v") (VStr "video")
    (Object (Media.with_url (VStr "") no_source)) VUndefined.

(* { uid: "v", type: "video", source: { url: [] } } *)
Definition video_empty_list : Media.SceneMediaConfig :=
  Media.mkConfig (VStr "v") (VStr "video")
    (Object (Media.with_url (VArr []) no_source)) VUndefined.

(* [ { device: "A", url: "a" }, { device: "B", url: "b" } ] *)
Definition two_levels : list value :=
  [ VObj [("device", VStr "A"); ("url", VStr "a")];
    VObj [("device", VStr "B"); ("url", VStr "b")] ].

(* { uid: "v", type: "video", source: { levels: two_levels } } *)
Definition video_levels : Media.SceneMediaConfig :=
  Media.mkConfig (VStr "v") (VStr "video")
    (Object (Media.mkSource VUndefined (VArr two_levels) VUndefined VUndefined))
    VUndefined.

(* the uniforms the Tint effect declares: { color: { value: null },
   amount: { value: 1 } } *)
Definition tint_uniforms : gmap string value :=
  <["color" := VNull]> (<["amount" := VNum 1]> ∅).

Definition tint : PostProcessing.Shader :=
  PostProcessing.mkShader (Some (PostProcessing.plain_uniforms tint_uniforms)).

Definition copy : PostProcessing.Shader := PostProcessing.mkShader None.

Definition catalog : PostProcessing.Host :=
  PostProcessing.mkHost (<["Tint" := tint]> (<["Copy" := copy]> ∅)).

(* { type: "THREE.Color", args: "red" } *)
Definition color_red : value :=
  VObj [("type", VStr "THREE.Color"); ("args", VStr "red")].

(* { type: "THREE.Color", args: [1, 2] } *)
Definition color_two_args : value :=
  VObj [("type", VStr "THREE.Color"); ("args", VArr [VNum 1; VNum 2])].

(* { type: "THREE.Matrix3", args: [1] } *)
Definition matrix_spec : value :=
  VObj [("type", VStr "THREE.Matrix3"); ("args", VArr [VNum 1])].

Definition fx_tint (v : value) : PostProcessing.FX :=
  PostProcessing.mkFX (VStr "fx-tint") "Tint" [("color", v)].

Definition fx_unknown : PostProcessing.FX :=
  PostProcessing.mkFX (VStr "fx-x") "NoSuchEffect" [].

Definition fx_copy : PostProcessing.FX :=
  PostProcessing.mkFX (VStr "fx-copy") "Copy" [("opacity", VNum 1)].

Definition fx_bad_name : PostProcessing.FX :=
  PostProcessing.mkFX (VStr "fx-tint") "Tint" [("colour", VNum 1)].

(* { uid: "i", type: "image", source: { url: "a.jpg", format: "hemisphere" } } *)
Definition image_hemisphere : Media.SceneMediaConfig :=
  Media.mkConfig (VStr "i") (VStr "image")
    (Object (Media.mkSource (VStr "a.jpg") VUndefined (VStr "hemisphere")
               VUndefined))
    VUndefined.

(* { uid: "v", type: "video", source: { url: "m.mpd", streaming: "DASH" } } *)
Definition video_dash : Media.SceneMediaConfig :=
  Media.mkConfig (VStr "v") (VStr "video")
    (Object (Media.mkSource (VStr "m.mpd") VUndefined VUndefined (VStr "DASH")))
    VUndefined.

(* { uid: "v", type: "video", source: { url: "m.mp4", streaming: 5 } } *)
Definition video_streaming_number : Media.SceneMediaConfig :=
  Media.mkConfig (VStr "v") (VStr "video")
    (Object (Media.mkSource (VStr "m.mp4") VUndefined VUndefined (VNum 5)))
    VUndefined.

(* { uid: "v", type: "video", source: { } } *)
Definition video_no_url : Media.SceneMediaConfig :=
  Media.mkConfig (VStr "v") (VStr "video") (Object no_source) VUndefined.

(* { uid: "v", type: "video", source: { url: "m.mp4" },
     options: { volume: "loud", loop: false, autoPlay: true } } *)
Definition video_with_options : Media.SceneMediaConfig :=
  Media.mkConfig (VStr "v") (VStr "video")
    (Object (Media.with_url (VStr "m.mp4") no_source))
    (VObj [("volume", VStr "loud"); ("loop", VBool false);
           ("autoPlay", VBool true)]).

(* { uid: "m", type: "model", source: { url: "a.obj" } } *)
Definition unknown_type : Media.SceneMediaConfig :=
  Media.mkConfig (VStr "m") (VStr "model")
    (Object (Media.with_url (VStr "a.obj") no_source)) VUndefined.

(* { uid: "fx", fxSets: [ { uid: "low", set: [fx_copy] },
                          { uid: "high", set: [fx_copy, fx_unknown] },
                          { uid: "low", set: [fx_unknown] } ] } *)
Definition fx_config : PostProcessing.FXConfig :=
  PostProcessing.mkFXConfig (VStr "fx")
    (Object [ PostProcessing.mkFXSet "low" (Object [fx_copy]);
              PostProcessing.mkFXSet "high" (Object [fx_copy; fx_unknown]);
              PostProcessing.mkFXSet "low" (Object [fx_unknown]) ]).

(* { uid: "fx-tint", type: "Tint", params: { toString: 1 } } *)
Definition fx_inherited_name : PostProcessing.FX :=
  PostProcessing.mkFX (VStr "fx-tint") "Tint" [("toString", VNum 1)].

(* { type: "THREE.Vector2", args: [1] } *)
Definition vector_one_arg : value :=
  VObj [("type", VStr "THREE.Vector2"); ("args", VArr [VNum 1])].

End Sample.

(** ** Properties of FORGE.Media *)

Module MediaProps.
Import JS Media.

#[local] Arguments _notifyLoadComplete : simpl never.
#[local] Arguments parse_image : simpl never.
#[local] Arguments parse_video : simpl never.
#[local] Arguments collect_level_urls : simpl never.
#[local] Arguments load_video : simpl never.

Ltac run :=
  repeat (progress (cbv [mbind Eff_bind mret Eff_ret modify this lift throw];
                    simpl)).

(** *** Statements that leave the configuration object alone *)

Lemma keeps_ret {A} (a : A) : keeps_config (mret a).
Proof. by intros m. Qed.

Lemma keeps_throw {A} e : keeps_config (throw (A:=A) e).
Proof. by intros m. Qed.

Lemma keeps_lift {A} (c : completion A) : keeps_config (lift c).
Proof. by intros m. Qed.

Lemma keeps_this : keeps_config this.
Proof. by intros m. Qed.

Lemma keeps_modify (f : t → t) :
  (∀ m, _config (f m) = _config m) → keeps_config (modify f).
Proof. intros Hf m. apply Hf. Qed.

Lemma keeps_bind {A B} (c : M A) (f : A → M B) :
  keeps_config c → (∀ a, keeps_config (f a)) → keeps_config (c ≫= f).
Proof.
  intros Hc Hf m. unfold mbind, Eff_bind. specialize (Hc m).
  destruct (c m) as [[a|e] m']; simpl in *; [|done].
  by rewrite Hf.
Qed.

Lemma keeps_on_displayObject f : keeps_config (on_displayObject f).
Proof. intros m. unfold on_displayObject. by destruct (_displayObject m). Qed.

Lemma keeps_if {A} (b : bool) (c1 c2 : M A) :
  keeps_config c1 → keeps_config c2 → keeps_config (if b then c1 else c2).
Proof. by destruct b. Qed.

Create HintDb keeps.
#[export] Hint Resolve keeps_ret keeps_throw keeps_lift keeps_this
  keeps_on_displayObject : keeps.

Ltac keeps :=
  repeat first
    [ progress eauto with keeps
    | apply keeps_bind; [|intros ?]
    | apply keeps_if
    | apply keeps_modify; by intros ?
    | match goal with |- keeps_config (match ?x with _ => _ end) => destruct x end ].

Lemma keeps_notify : keeps_config _notifyLoadComplete.
Proof. unfold _notifyLoadComplete. keeps. Qed.
#[export] Hint Resolve keeps_notify : keeps.

Lemma keeps_read_source : keeps_config read_source.
Proof.
  intros m. unfold read_source.
  destruct (_config m) as [| |c] eqn:E; simpl; rewrite ?E; try done.
  by destruct (source c); simpl; rewrite E.
Qed.
#[export] Hint Resolve keeps_read_source : keeps.

Lemma keeps_parse_image host : keeps_config (parse_image host).
Proof. unfold parse_image. keeps. Qed.

Lemma keeps_load_video host : keeps_config (load_video host).
Proof. unfold load_video. keeps. Qed.

Lemma keeps_handler host : keeps_config (_onLoadedMetaDataHandler host).
Proof. unfold _onLoadedMetaDataHandler. keeps. Qed.

Lemma keeps_destroy : keeps_config destroy.
Proof. unfold destroy. keeps. Qed.

(** *** The loop over the levels *)

Lemma get_prop_not_nullish v k :
  nullish v = false → get_prop v k = Normal (prop_of k v).
Proof. unfold prop_of. by destruct v. Qed.

Lemma read_source_run m u ty s o :
  _config m = Object (mkConfig u ty (Object s) o) →
  read_source m = (Normal s, m).
Proof. intros E. unfold read_source. by rewrite E. Qed.

Lemma set_config_same m u ty s o :
  _config m = Object (mkConfig u ty (Object s) o) →
  set_config (Object (mkConfig u ty (Object (with_url (url s) s)) o)) m = m.
Proof. destruct m, s. simpl. by intros ->. Qed.

(** When no level is [null], the loop completes and leaves in
    [source.url] the urls it found there followed by the urls of the
    levels that pass the device check, in their order. *)
Lemma levels_loop_run host lvls : ∀ m u ty s o items,
  _config m = Object (mkConfig u ty (Object s) o) →
  url s = VArr items →
  Forall (λ l, nullish l = false) lvls →
  levels_loop host lvls m =
    (Normal tt,
     set_config (Object (mkConfig u ty
       (Object (with_url (VArr (items ++ surviving_urls host lvls)) s)) o)) m).
Proof.
  induction lvls as [|level rest IH]; intros m u ty s o items Hc Hu Hall.
  - simpl. rewrite app_nil_r, <- Hu. by rewrite set_config_same.
  - apply Forall_cons in Hall as [Hl Hrest]. simpl.
    unfold mbind, Eff_bind, lift.
    rewrite (get_prop_not_nullish _ "device" Hl).
    unfold surviving_urls. rewrite filter_cons.
    destruct (Device_check host (prop_of "device" level)) eqn:Hd; simpl.
    + rewrite (get_prop_not_nullish _ "url" Hl).
      unfold push_url, mbind, Eff_bind.
      rewrite (read_source_run _ _ _ _ _ Hc), Hu.
      unfold write_source, modify. rewrite Hc. simpl.
      erewrite IH; [|reflexivity|reflexivity|done].
      simpl. by rewrite <- app_assoc.
    + by apply IH.
Qed.

(** Whatever the levels hold, the loop only ever replaces [source.url],
    by a list. *)
Lemma levels_loop_frame host lvls : ∀ m u ty s o items,
  _config m = Object (mkConfig u ty (Object s) o) →
  url s = VArr items →
  ∃ items',
    _config (levels_loop host lvls m).2 =
      Object (mkConfig u ty (Object (with_url (VArr items') s)) o).
Proof.
  induction lvls as [|level rest IH]; intros m u ty s o items Hc Hu.
  - exists items. simpl. rewrite Hc, <- Hu. by destruct s.
  - simpl. unfold mbind, Eff_bind, lift.
    assert (Hsame : _config m =
      Object (mkConfig u ty (Object (with_url (VArr items) s)) o)).
    { rewrite Hc, <- Hu. by destruct s. }
    destruct (get_prop level "device") as [device|e]; simpl; [|by eauto].
    destruct (Device_check host device); simpl; [|by eauto].
    destruct (get_prop level "url") as [v|e]; simpl; [|by eauto].
    unfold push_url, mbind, Eff_bind.
    rewrite (read_source_run _ _ _ _ _ Hc), Hu.
    unfold write_source, modify. rewrite Hc. simpl.
    edestruct (IH (set_config (Object (mkConfig u ty
                 (Object (with_url (VArr (items ++ [v])) s)) o)) m))
      as [items' H']; [reflexivity|reflexivity|].
    exists items'. by rewrite H'.
Qed.

Lemma collect_level_urls_frame host m u ty s o :
  _config m = Object (mkConfig u ty (Object s) o) →
  ∃ url',
    _config (collect_level_urls host m).2 =
      Object (mkConfig u ty (Object (with_url url' s)) o) ∧
    (isArray (levels s) = false → url' = url s).
Proof.
  intros Hc. unfold collect_level_urls, mbind, Eff_bind.
  rewrite (read_source_run _ _ _ _ _ Hc).
  destruct (levels s) as [| | | | |lvls| | | | |] eqn:Hl;
    try (exists (url s); split; [simpl; rewrite Hc; by destruct s|done]).
  unfold write_source, modify. rewrite Hc. simpl.
  edestruct (levels_loop_frame host lvls
               (set_config (Object (mkConfig u ty
                  (Object (with_url (VArr []) s)) o)) m))
    as [items' H']; [reflexivity|reflexivity|].
  exists (VArr items'). split; [by rewrite H'|done].
Qed.

Lemma config_bind {A B} (c : M A) (f : A → M B) m :
  (∀ a, keeps_config (f a)) →
  _config ((c ≫= f) m).2 = _config (c m).2.
Proof.
  intros Hf. unfold mbind, Eff_bind.
  destruct (c m) as [[a|e] m']; simpl; [apply Hf|done].
Qed.

Lemma parse_video_frame host m u ty s o :
  _config m = Object (mkConfig u ty (Object s) o) →
  ∃ url',
    _config (parse_video host m).2 =
      Object (mkConfig u ty (Object (with_url url' s)) o) ∧
    (isArray (levels s) = false → url' = url s).
Proof.
  intros Hc. unfold parse_video. rewrite config_bind.
  - by apply collect_level_urls_frame.
  - intros _. apply keeps_load_video.
Qed.

(** *** The dispatch of the constructor *)

Lemma new_absent host viewer :
  new host viewer Absent =
    (Normal tt,
     mkMedia (Some viewer) Absent VNull (VStr (MediaType_UNDEFINED host)) VNull
       None true (Some (mkEventDispatcher true)) 1 []).
Proof. reflexivity. Qed.

Lemma new_null host viewer :
  new host viewer IsNull =
    (Normal tt,
     mkMedia (Some viewer) IsNull VNull (VStr (MediaType_UNDEFINED host)) VNull
       None true (Some (mkEventDispatcher true)) 1 []).
Proof. reflexivity. Qed.

Lemma new_source_absent host viewer u ty o :
  let c := mkConfig u ty Absent o in
  new host viewer (Object c) =
    if strict_eq_str ty (MediaType_GRID host)
    then _notifyLoadComplete (classified viewer c)
    else (Normal tt, classified viewer c).
Proof. simpl. unfold new, _boot, _parseConfig. run. by destruct strict_eq_str. Qed.

Lemma new_source_null host viewer u ty o :
  let c := mkConfig u ty IsNull o in
  new host viewer (Object c) =
    (Throw (TypeError "Cannot read property 'format' of null"),
     classified viewer c).
Proof. reflexivity. Qed.

Lemma new_source_object host viewer u ty s o :
  let c := mkConfig u ty (Object (defaulted host s)) o in
  new host viewer (Object (mkConfig u ty (Object s) o)) =
    if strict_eq_str ty (MediaType_GRID host)
    then _notifyLoadComplete (classified viewer c)
    else if strict_eq_str ty (MediaType_IMAGE host)
    then parse_image host (classified viewer c)
    else if strict_eq_str ty (MediaType_VIDEO host)
    then parse_video host (classified viewer c)
    else (Normal tt, classified viewer c).
Proof.
  simpl. unfold new, _boot, _parseConfig, defaulted. run.
  destruct (bool_decide (typeof (format s) = "undefined")); run;
    destruct (strict_eq_str ty (MediaType_GRID host));
    destruct (strict_eq_str ty (MediaType_IMAGE host));
    destruct (strict_eq_str ty (MediaType_VIDEO host));
    try reflexivity; by destruct s.
Qed.

Lemma strict_eq_str_same s : strict_eq_str (VStr s) s = true.
Proof. simpl. by rewrite bool_decide_eq_true. Qed.

Lemma strict_eq_str_other s s' : s ≠ s' → strict_eq_str (VStr s) s' = false.
Proof. intros. simpl. by rewrite bool_decide_eq_false. Qed.

Lemma collect_level_urls_run host m u ty s o lvls :
  _config m = Object (mkConfig u ty (Object s) o) →
  levels s = VArr lvls →
  Forall (λ l, nullish l = false) lvls →
  collect_level_urls host m =
    (Normal tt,
     set_config (Object (mkConfig u ty
       (Object (with_url (VArr (surviving_urls host lvls)) s)) o)) m).
Proof.
  intros Hc Hl Hall. unfold collect_level_urls, mbind, Eff_bind.
  rewrite (read_source_run _ _ _ _ _ Hc), Hl.
  unfold write_source, modify. rewrite Hc. simpl.
  erewrite levels_loop_run; [|reflexivity|reflexivity|done].
  by destruct s.
Qed.

Lemma collect_level_urls_skip host m u ty s o :
  _config m = Object (mkConfig u ty (Object s) o) →
  isArray (levels s) = false →
  collect_level_urls host m = (Normal tt, m).
Proof.
  intros Hc Hl. unfold collect_level_urls, mbind, Eff_bind.
  rewrite (read_source_run _ _ _ _ _ Hc).
  by destruct (levels s).
Qed.

Lemma load_video_empty host m u ty s o :
  _config m = Object (mkConfig u ty (Object s) o) →
  url s = VArr [] →
  load_video host m = (Normal tt, m).
Proof.
  intros Hc Hu. unfold load_video, mbind, Eff_bind.
  rewrite (read_source_run _ _ _ _ _ Hc), Hu. reflexivity.
Qed.

Ltac video_object :=
  match goal with
  | |- context [bool_decide (typeof (streaming ?s) ≠ "undefined")] =>
      destruct (bool_decide (typeof (streaming s) ≠ "undefined")); run;
      [ destruct (toLowerCase (streaming s)) as [?|?]; run;
        [ match goal with
          | |- context [strict_eq_str ?l ?d] => destruct (strict_eq_str l d); run
          end | ]
      | ]
  end;
  try match goal with
      | |- context [_viewer ?m] => destruct (_viewer m); run
      end;
  unfold on_displayObject; simpl.

Lemma load_video_url host m u ty s o d :
  _config m = Object (mkConfig u ty (Object s) o) →
  _displayObject (load_video host m).2 = Some d →
  _displayObject m = Some d ∨ do_url d = url s.
Proof.
  intros Hc. unfold load_video, mbind, Eff_bind.
  rewrite (read_source_run _ _ _ _ _ Hc).
  destruct (bool_decide (typeof (url s) ≠ "string")); run.
  - destruct (get_prop (url s) "length") as [len|e]; run; [|by left].
    destruct (strict_eq_num len 0); run; [by left|].
    video_object; first [by left | by (intros [= <-]; right)].
  - video_object; first [by left | by (intros [= <-]; right)].
Qed.

Lemma load_video_constructs host m u ty s o viewer x items :
  _config m = Object (mkConfig u ty (Object s) o) →
  _viewer m = Some viewer →
  url s = VArr (x :: items) →
  typeof (streaming s) = "undefined" ∨ typeof (streaming s) = "string" →
  ∃ d, load_video host m = (Normal tt, set_displayObject (Some d) m) ∧
       do_url d = url s ∧ do_listener d = Some OnLoadedMetaDataHandler.
Proof.
  intros Hc Hv Hu Hs. unfold load_video, mbind, Eff_bind.
  rewrite (read_source_run _ _ _ _ _ Hc), Hu. run.
  destruct (streaming s) as [| | | |str| | | | | |];
    (destruct Hs as [Hs|Hs]; simpl in Hs; try discriminate Hs); run.
  - rewrite Hv. run. unfold on_displayObject; simpl. eauto.
  - destruct (bool_decide (lower str = VideoFormat_DASH host)); run.
    + unfold on_displayObject; simpl. eauto.
    + rewrite Hv. run. unfold on_displayObject; simpl. eauto.
Qed.

(** *** The invariant of a media without display object *)

Lemma step_without_displayObject host m m' :
  step host m m' →
  _displayObject m = None →
  _displayObject m' = None ∧ fired m' = fired m ∧ _loaded m' = _loaded m.
Proof.
  intros [m0 d h Hd _|m0] Hnone; [congruence|].
  unfold destroy. run. rewrite Hnone. run.
  by destruct (_onLoadComplete m0).
Qed.

Lemma rtc_without_displayObject host m m' :
  rtc (step host) m m' →
  _displayObject m = None →
  _displayObject m' = None ∧ fired m' = fired m ∧ _loaded m' = _loaded m.
Proof.
  induction 1 as [|m1 m2 m3 Hstep _ IH]; intros Hnone; [done|].
  destruct (step_without_displayObject _ _ _ Hstep Hnone) as (H1 & H2 & H3).
  destruct (IH H1) as (? & ? & ?). split_and!; congruence.
Qed.

Lemma notify_run m e :
  _onLoadComplete m = Some e →
  _notifyLoadComplete m = (Normal tt, count_dispatch (set_loaded true m)).
Proof. intros H. unfold _notifyLoadComplete. run. by rewrite H. Qed.

(** *** Media descriptors that are absent or grids *)

Lemma classified_notify viewer c :
  _notifyLoadComplete (classified viewer c) =
    (Normal tt, count_dispatch (set_loaded true (classified viewer c))).
Proof. by apply notify_run with (e := mkEventDispatcher true). Qed.

(** With no descriptor, and with a Grid descriptor whose source is not
    [null], the constructor completes, has dispatched [onLoadComplete]
    once and set the loaded flag, and nothing that happens later changes
    either. *)
Lemma absent_or_grid_notifies_once host viewer (c : nullable SceneMediaConfig) :
  match c with
  | Absent | IsNull => True
  | Object cfg =>
      type cfg = VStr (MediaType_GRID host) ∧ source cfg ≠ IsNull
  end →
  let r := new host viewer c in
  r.1 = Normal tt ∧ loaded r.2 = true ∧ fired r.2 = 1 ∧
  ∀ m', rtc (step host) r.2 m' → loaded m' = true ∧ fired m' = 1.
Proof.
  intros Hc r.
  assert (H : r.1 = Normal tt ∧ _loaded r.2 = true ∧ fired r.2 = 1 ∧
              _displayObject r.2 = None).
  { subst r. destruct c as [| |[u ty src o]]; [done|done|].
    simpl in Hc. destruct Hc as [-> Hsrc].
    destruct src as [| |s]; [|done|].
    - rewrite new_source_absent, strict_eq_str_same, classified_notify. done.
    - rewrite new_source_object, strict_eq_str_same, classified_notify. done. }
  destruct H as (H1 & H2 & H3 & H4). split_and!; try done.
  intros m' Hm'. destruct (rtc_without_displayObject _ _ _ Hm' H4) as (_ & ? & ?).
  unfold loaded. split; congruence.
Qed.

(** C5 fails on the code at a Grid descriptor with [source: null]:
    line 114 reads [config.source.format] before the Grid test of line
    119 and throws, so [onLoadComplete] is not dispatched and the loaded
    flag stays unset. *)
Theorem grid_null_source_throws host viewer u o :
  let r := new host viewer
             (Object (mkConfig u (VStr (MediaType_GRID host)) IsNull o)) in
  r.1 = Throw (TypeError "Cannot read property 'format' of null") ∧
  loaded r.2 = false ∧ fired r.2 = 0.
Proof. intros r. subst r. by rewrite new_source_null. Qed.

(** C6: an Image descriptor with a source that has no url makes the
    constructor throw, with no display object constructed and nothing
    dispatched. *)
Theorem image_without_url_throws host viewer u o s :
  distinct_types host →
  url s = VUndefined →
  let r := new host viewer
             (Object (mkConfig u (VStr (MediaType_IMAGE host)) (Object s) o)) in
  r.1 = Throw (ThrownString "Multi resolution not implemented yet !") ∧
  displayObject r.2 = None ∧ loaded r.2 = false ∧ fired r.2 = 0.
Proof.
  intros (Hgi & _ & _) Hu r. subst r.
  rewrite new_source_object.
  rewrite strict_eq_str_other by done. rewrite strict_eq_str_same.
  unfold parse_image, mbind, Eff_bind.
  erewrite read_source_run by reflexivity.
  replace (url (defaulted host s)) with VUndefined; [done|].
  unfold defaulted. by destruct (bool_decide _), s.
Qed.

Lemma image_without_url_throws_witness :
  let r := new Sample.host Sample.viewer (Object Sample.image_no_url) in
  r.1 = Throw (ThrownString "Multi resolution not implemented yet !") ∧
  displayObject r.2 = None ∧ loaded r.2 = false ∧ fired r.2 = 0.
Proof.
  apply (image_without_url_throws Sample.host Sample.viewer (VStr "i") VUndefined
           (with_format (VStr "equi") Sample.no_source)).
  - unfold distinct_types. simpl. split_and!; discriminate.
  - reflexivity.
Defined.

(** C8: [destroy()] completes on every media, with or without a display
    object; afterwards the displayObject accessor yields [null], and the
    display object the media had, if any, was told to destroy itself. *)
Theorem destroy_releases m :
  (destroy m).1 = Normal tt ∧
  displayObject (destroy m).2 = None ∧
  released (destroy m).2 =
    match displayObject m with
    | Some d => d :: released m
    | None => released m
    end.
Proof.
  unfold destroy, displayObject. run.
  destruct (_displayObject m) eqn:E; run;
    destruct (_onLoadComplete m); run; by rewrite ?E.
Qed.

(** C1, as stated, fails at the empty string: the resolved url of
    [{ type: "video", source: { url: "" } }] is neither a non-empty
    string nor a non-empty sequence, and a video object is constructed
    and told to load it. *)
Lemma empty_string_url_counterexample :
  let r := new Sample.host Sample.viewer (Object Sample.video_empty_string) in
  (∃ c s, config r.2 = Object c ∧
          type c = VStr (MediaType_VIDEO Sample.host) ∧
          source c = Object s ∧ url s = VStr "") ∧
  r.1 = Normal tt ∧
  displayObject r.2 =
    Some (do_set_listener (Some OnLoadedMetaDataHandler)
            (do_set_url (VStr "") (new_VideoHTML5 (VStr "v") false))).
Proof. split; [by eexists _, _|done]. Qed.

(** C1, amended: for a Video descriptor whose url, after the optional
    filtering of the levels, is the empty list, resolution completes
    without exception, constructs no display object, does not dispatch
    [onLoadComplete] and leaves the loaded flag unset; nothing that
    happens to the media later changes that. *)
Theorem video_empty_list_stops_silently host viewer u o s :
  distinct_types host →
  (isArray (levels s) = false ∧ url s = VArr []) ∨
  (∃ lvls, levels s = VArr lvls ∧ Forall (λ l, nullish l = false) lvls ∧
           surviving_urls host lvls = []) →
  let r := new host viewer
             (Object (mkConfig u (VStr (MediaType_VIDEO host)) (Object s) o)) in
  r.1 = Normal tt ∧ displayObject r.2 = None ∧
  loaded r.2 = false ∧ fired r.2 = 0 ∧
  ∀ m', rtc (step host) r.2 m' →
        displayObject m' = None ∧ loaded m' = false ∧ fired m' = 0.
Proof.
  intros (_ & Hgv & Hiv) Hs r.
  assert (H : r.1 = Normal tt ∧ _displayObject r.2 = None ∧
              _loaded r.2 = false ∧ fired r.2 = 0).
  { subst r. rewrite new_source_object.
    rewrite !strict_eq_str_other by done. rewrite strict_eq_str_same.
    unfold parse_video, mbind, Eff_bind.
    assert (Hl : levels (defaulted host s) = levels s).
    { unfold defaulted. by destruct (bool_decide _), s. }
    assert (Hu : url (defaulted host s) = url s).
    { unfold defaulted. by destruct (bool_decide _), s. }
    destruct Hs as [[Harr Hurl]|(lvls & Hlv & Hall & Hnone)].
    - erewrite collect_level_urls_skip; [|reflexivity|by rewrite Hl].
      erewrite load_video_empty; [done|reflexivity|by rewrite Hu].
    - erewrite collect_level_urls_run; [|reflexivity|by rewrite Hl|done].
      rewrite Hnone.
      erewrite load_video_empty; [done|reflexivity|done]. }
  destruct H as (H1 & H2 & H3 & H4). split_and!; try done.
  intros m' Hm'. destruct (rtc_without_displayObject _ _ _ Hm' H2) as (? & ? & ?).
  unfold displayObject, loaded. split_and!; congruence.
Qed.

Lemma video_empty_list_stops_silently_witness :
  let r := new Sample.host Sample.viewer (Object Sample.video_empty_list) in
  r.1 = Normal tt ∧ displayObject r.2 = None ∧
  loaded r.2 = false ∧ fired r.2 = 0 ∧
  ∀ m', rtc (step Sample.host) r.2 m' →
        displayObject m' = None ∧ loaded m' = false ∧ fired m' = 0.
Proof.
  apply (video_empty_list_stops_silently Sample.host Sample.viewer (VStr "v")
           VUndefined (with_url (VArr []) Sample.no_source)).
  - unfold distinct_types. simpl. split_and!; discriminate.
  - left. split; reflexivity.
Defined.

(** C3, as stated, fails at an image without format (line 116 writes
    the flat format into the configuration) and at a video with levels
    (line 177 and the loop replace [source.url]). *)
Lemma config_mutated_counterexample :
  config (new Sample.host Sample.viewer (Object Sample.image)).2
    ≠ Object Sample.image ∧
  config (new Sample.host Sample.viewer (Object Sample.video_levels)).2
    ≠ Object Sample.video_levels.
Proof. split; discriminate. Qed.

(** The loop leaves in [source.url] the urls it found there followed by
    the urls of the levels that pass the device check, among the levels
    it got through, in their order, whether it completes or throws at a
    level that is [null]. *)
Lemma levels_loop_config host lvls : ∀ m u ty s o items,
  _config m = Object (mkConfig u ty (Object s) o) →
  url s = VArr items →
  _config (levels_loop host lvls m).2 =
    Object (mkConfig u ty
      (Object (with_url
         (VArr (items ++ surviving_urls host (leading_levels lvls))) s)) o).
Proof.
  induction lvls as [|level rest IH]; intros m u ty s o items Hc Hu.
  - simpl. rewrite app_nil_r, Hc, <- Hu. by destruct s.
  - simpl. destruct (nullish level) eqn:Hl.
    + unfold mbind, Eff_bind, lift.
      assert (Hthrow : is_throw (get_prop level "device") = true)
        by by destruct level.
      destruct (get_prop level "device"); [done|]. simpl.
      rewrite app_nil_r, Hc, <- Hu. by destruct s.
    + unfold mbind, Eff_bind, lift.
      rewrite (get_prop_not_nullish _ "device" Hl).
      unfold surviving_urls. rewrite filter_cons.
      destruct (Device_check host (prop_of "device" level)) eqn:Hd; simpl.
      * rewrite (get_prop_not_nullish _ "url" Hl).
        unfold push_url, mbind, Eff_bind.
        rewrite (read_source_run _ _ _ _ _ Hc), Hu.
        unfold write_source, modify. rewrite Hc. simpl.
        erewrite IH; [|reflexivity|reflexivity].
        simpl. by rewrite <- app_assoc.
      * by apply IH.
Qed.

Lemma parse_video_config host m u ty s o :
  _config m = Object (mkConfig u ty (Object s) o) →
  _config (parse_video host m).2 =
    Object (mkConfig u ty
      (Object (with_url
         match levels s with
         | VArr lvls => VArr (surviving_urls host (leading_levels lvls))
         | _ => url s
         end s)) o).
Proof.
  intros Hc. unfold parse_video. rewrite config_bind by (intros _; apply keeps_load_video).
  unfold collect_level_urls, mbind, Eff_bind.
  rewrite (read_source_run _ _ _ _ _ Hc).
  destruct (levels s) as [| | | | |lvls| | | | |] eqn:Hl;
    try (simpl; rewrite Hc; by destruct s).
  unfold write_source, modify. rewrite Hc. simpl.
  erewrite levels_loop_config; [|reflexivity|reflexivity].
  by destruct s.
Qed.

(** C3, amended: after resolution the config accessor returns the
    configuration passed in, with the same uid, type, options, and the
    same presence of a source; of the source, [levels] and [streaming]
    are the same, [format] is the one given or, when none was given, the
    flat format, and [url] is the one given unless the descriptor is
    resolved as a Video and has a [levels] array: then it is the list of
    the urls of the levels that pass the device check, in the order of
    the levels (of the levels before the first that is [null], where
    resolution throws). *)
Theorem config_after_resolution host viewer (c : nullable SceneMediaConfig) :
  let m := (new host viewer c).2 in
  match c with
  | Absent | IsNull => config m = c
  | Object cfg =>
      ∃ cfg',
        config m = Object cfg' ∧
        uid cfg' = uid cfg ∧ type cfg' = type cfg ∧ options cfg' = options cfg ∧
        match source cfg with
        | Absent => source cfg' = Absent
        | IsNull => source cfg' = IsNull
        | Object s =>
            ∃ s',
              source cfg' = Object s' ∧
              levels s' = levels s ∧ streaming s' = streaming s ∧
              format s' = (if bool_decide (typeof (format s) = "undefined")
                           then VStr (MediaFormat_FLAT host) else format s) ∧
              url s' =
                match levels s with
                | VArr lvls =>
                    if negb (strict_eq_str (type cfg) (MediaType_GRID host))
                       && negb (strict_eq_str (type cfg) (MediaType_IMAGE host))
                       && strict_eq_str (type cfg) (MediaType_VIDEO host)
                    then VArr (surviving_urls host (leading_levels lvls))
                    else url s
                | _ => url s
                end
        end
  end.
Proof.
  destruct c as [| |[u ty src o]]; [done|done|]. simpl.
  destruct src as [| |s].
  - rewrite new_source_absent. destruct strict_eq_str.
    + rewrite classified_notify. by eexists.
    + by eexists.
  - rewrite new_source_null. by eexists.
  - rewrite new_source_object. unfold config.
    assert (Hd : levels (defaulted host s) = levels s ∧
                 streaming (defaulted host s) = streaming s ∧
                 url (defaulted host s) = url s ∧
                 format (defaulted host s) =
                   (if bool_decide (typeof (format s) = "undefined")
                    then VStr (MediaFormat_FLAT host) else format s)).
    { unfold defaulted. by destruct (bool_decide _), s. }
    destruct Hd as (Hl & Hs & Hu & Hf).
    destruct (strict_eq_str ty (MediaType_GRID host)).
    { rewrite classified_notify. eexists. split_and!; try done.
      eexists. split_and!; try done. simpl. rewrite Hu. by destruct (levels s). }
    destruct (strict_eq_str ty (MediaType_IMAGE host)).
    { rewrite keeps_parse_image. eexists. split_and!; try done.
      eexists. split_and!; try done. simpl. rewrite Hu. by destruct (levels s). }
    destruct (strict_eq_str ty (MediaType_VIDEO host)).
    2:{ eexists. split_and!; try done.
        eexists. split_and!; try done. simpl. rewrite Hu. by destruct (levels s). }
    erewrite parse_video_config by reflexivity.
    eexists. split_and!; try done.
    eexists. split_and!; try done.
    simpl. rewrite Hl, Hu. by destruct (levels s).
Qed.

(** The configuration of the sample video with two levels, after
    resolution: [source.url] is [["b"]]. *)
Lemma config_after_resolution_witness :
  ∃ cfg' s',
    config (new Sample.host Sample.viewer (Object Sample.video_levels)).2
      = Object cfg' ∧
    source cfg' = Object s' ∧ url s' = VArr [VStr "b"] ∧
    format s' = VStr "flat".
Proof.
  destruct (config_after_resolution Sample.host Sample.viewer
              (Object Sample.video_levels))
    as (cfg' & Hc & _ & _ & _ & s' & Hs & _ & _ & Hf & Hu).
  exists cfg', s'. split; [exact Hc|]. split; [exact Hs|].
  split; [exact Hu|exact Hf].
Defined.

(** C4: for a Video descriptor whose [levels] is an array of levels none
    of which is [null], resolution leaves in [source.url] the urls of the
    levels that pass the device check, in the order of the levels; a
    display object, when one is constructed, was told to load that list,
    and one is constructed when the list is not empty and [streaming] is
    absent or a string. *)
Theorem levels_filtered_in_order host viewer u o s lvls :
  distinct_types host →
  levels s = VArr lvls →
  Forall (λ l, nullish l = false) lvls →
  let c := mkConfig u (VStr (MediaType_VIDEO host)) (Object s) o in
  let r := new host viewer (Object c) in
  (∃ s', config r.2 = Object (mkConfig u (VStr (MediaType_VIDEO host)) (Object s') o)
         ∧ url s' = VArr (surviving_urls host lvls)) ∧
  (∀ d, displayObject r.2 = Some d → do_url d = VArr (surviving_urls host lvls)) ∧
  (surviving_urls host lvls ≠ [] →
   typeof (streaming s) = "undefined" ∨ typeof (streaming s) = "string" →
   r.1 = Normal tt ∧ ∃ d, displayObject r.2 = Some d).
Proof.
  intros (_ & Hgv & Hiv) Hlv Hall c r. subst c r.
  rewrite new_source_object.
  rewrite !strict_eq_str_other by done. rewrite strict_eq_str_same.
  assert (Hd : levels (defaulted host s) = levels s ∧
               streaming (defaulted host s) = streaming s).
  { unfold defaulted. by destruct (bool_decide _), s. }
  destruct Hd as (Hl & Hs).
  unfold parse_video, mbind, Eff_bind, config, displayObject.
  erewrite collect_level_urls_run; [|reflexivity|by rewrite Hl|done].
  set (s1 := with_url (VArr (surviving_urls host lvls)) (defaulted host s)).
  set (m1 := set_config _ _).
  assert (Hc1 : _config m1 =
    Object (mkConfig u (VStr (MediaType_VIDEO host)) (Object s1) o)) by done.
  split_and!.
  - exists s1. split; [|done]. rewrite <- Hc1. apply (keeps_load_video host).
  - intros d Hdo. by destruct (load_video_url _ _ _ _ _ _ _ Hc1 Hdo).
  - intros Hne Hstr. destruct (surviving_urls host lvls) as [|x items] eqn:E; [done|].
    edestruct (load_video_constructs host m1) as (d & -> & _);
      [exact Hc1|reflexivity|reflexivity|by simpl; rewrite Hs|].
    split; [done|by eexists].
Qed.

Lemma levels_filtered_in_order_witness :
  let r := new Sample.host Sample.viewer (Object Sample.video_levels) in
  (∃ s', config r.2 =
           Object (mkConfig (VStr "v") (VStr "video") (Object s') VUndefined)
         ∧ url s' = VArr [VStr "b"]) ∧
  (∀ d, displayObject r.2 = Some d → do_url d = VArr [VStr "b"]) ∧
  ([VStr "b"] ≠ [] →
   "undefined" = "undefined" ∨ "undefined" = "string" →
   r.1 = Normal tt ∧ ∃ d, displayObject r.2 = Some d).
Proof.
  apply (levels_filtered_in_order Sample.host Sample.viewer (VStr "v") VUndefined
           (mkSource VUndefined (VArr Sample.two_levels) VUndefined VUndefined)
           Sample.two_levels).
  - unfold distinct_types. simpl. split_and!; discriminate.
  - reflexivity.
  - repeat constructor.
Defined.

End MediaProps.

(** ** Properties of FORGE.PostProcessing *)

Module PostProcessingProps.
Import JS PostProcessing.

(** *** Structured parameter values *)

Lemma resolve_param_tagged props tag args :
  assoc "type" props = Some tag →
  assoc "args" props = Some args →
  resolve_param (VObj props) = build_typed (VObj props) tag args.
Proof.
  intros Ht Ha. unfold resolve_param, is_object_to_build. simpl.
  by rewrite Ht, Ha.
Qed.

Lemma color_of_three_components p a b c :
  build_typed p (VStr "THREE.Color") (VArr [a; b; c]) = Normal (VColor3 a b c).
Proof. reflexivity. Qed.

Lemma color_of_number p n :
  build_typed p (VStr "THREE.Color") (VNum n) = Normal (VColor1 (VNum n)).
Proof. reflexivity. Qed.

Lemma color_of_string p s :
  String.length s ≠ 3 →
  build_typed p (VStr "THREE.Color") (VStr s) = Normal (VColor1 (VStr s)).
Proof.
  intros Hlen. unfold build_typed. simpl.
  rewrite bool_decide_eq_false_2; [done|]. intros [= H]. lia.
Qed.

Lemma color_of_three_characters p a b c :
  build_typed p (VStr "THREE.Color") (VStr (String a (String b (String c "")))) =
    Normal (VColor3 (VStr (String a "")) (VStr (String b "")) (VStr (String c ""))).
Proof. reflexivity. Qed.

Lemma color_of_other_arity p items :
  length items ≠ 3 →
  build_typed p (VStr "THREE.Color") (VArr items) =
    Throw (ThrownError ("Cannot create THREE.Color with object (length " +:+
                        pretty (Z.of_nat (length items)) +:+ ")")).
Proof.
  intros Hlen. unfold build_typed. simpl.
  rewrite bool_decide_eq_false_2; [done|]. intros [= H]. lia.
Qed.

Lemma untyped_tag_kept p tag args :
  strict_eq_str tag "THREE.Color" = false →
  strict_eq_str tag "THREE.Vector2" = false →
  strict_eq_str tag "THREE.Vector3" = false →
  build_typed p tag args = Normal p.
Proof. intros H1 H2 H3. unfold build_typed. by rewrite H1, H2, H3. Qed.

(** *** Binding the declared parameters *)

Lemma bind_param_Normal fx param u u' :
  bind_param fx param u = Normal u' →
  ∃ v, resolve_param (declared fx param) = Normal v ∧
       is_Some (u !! param) ∧ u' = <[param := v]> u.
Proof.
  unfold bind_param.
  destruct (resolve_param (declared fx param)) as [v|e]; [|done].
  destruct (u !! param) eqn:E; [|done].
  intros [= <-]. eauto.
Qed.

(** When the loop completes, every slot named by a declared parameter
    existed before and holds that parameter's value, and the other
    slots are as they were. *)
Lemma bind_params_Normal fx names : ∀ u u',
  bind_params fx names u = Normal u' →
  ∀ k,
    (k ∈ names →
       is_Some (u !! k) ∧
       ∃ v, resolve_param (declared fx k) = Normal v ∧ u' !! k = Some v) ∧
    (k ∉ names → u' !! k = u !! k).
Proof.
  induction names as [|param rest IH]; intros u u' Hrun k; simpl in Hrun.
  - injection Hrun as <-. split; [by intros ?%elem_of_nil|done].
  - destruct (bind_param fx param u) as [u1|e] eqn:Hstep; [|done].
    apply bind_param_Normal in Hstep as (v & Hv & Hslot & ->).
    destruct (IH _ _ Hrun k) as [Hin Hout].
    assert (Hsome : is_Some (<[param:=v]> u !! k) → is_Some (u !! k)).
    { destruct (decide (param = k)) as [<-|Hne]; [done|].
      by rewrite lookup_insert_ne. }
    split.
    + intros Hk. destruct (decide (k ∈ rest)) as [Hr|Hr].
      * destruct (Hin Hr) as [? ?]. auto.
      * apply elem_of_cons in Hk as [->|?]; [|done].
        split; [done|]. exists v. split; [done|].
        by rewrite (Hout Hr), lookup_insert_eq.
    + intros Hk. apply not_elem_of_cons in Hk as [Hne Hr].
      by rewrite (Hout Hr), lookup_insert_ne.
Qed.


Lemma build_pass_Normal shader fx u pass :
  shader_uniforms shader = Some u →
  build_pass shader fx = Normal pass →
  ∃ u', bind_params fx (params fx).*1 u = Normal u' ∧
        pass = mkShaderPass (uid fx) (type fx) shader (Some u').
Proof.
  intros Hu. unfold build_pass. simpl. rewrite Hu.
  destruct (bind_params fx (params fx).*1 u) as [u'|e]; [|done].
  intros [= <-]. eauto.
Qed.

Lemma assoc_Some_elem k v props : assoc k props = Some v → k ∈ props.*1.
Proof.
  induction props as [|[k' v'] rest IH]; simpl; [done|].
  case_bool_decide; [intros _; subst; left|intros ?; right; auto].
Qed.

(** *** The loop over the descriptors *)

Lemma all_stages_Normal cs ps :
  all_stages cs = Normal ps →
  length ps = length cs ∧ Forall (λ c, is_throw c = false) cs.
Proof.
  revert ps. induction cs as [|[p|e] rest IH]; intros ps; simpl.
  - by intros [= <-].
  - destruct (all_stages rest) as [ps'|e]; [|done].
    intros [= <-]. destruct (IH _ eq_refl) as [Hl ?]. simpl. rewrite Hl.
    by split; [|constructor].
  - done.
Qed.

Lemma all_stages_total cs :
  Forall (λ c, is_throw c = false) cs → is_throw (all_stages cs) = false.
Proof.
  induction 1 as [|[p|e] rest Hc _ IH]; simpl; [done| |done].
  by destruct (all_stages rest).
Qed.

Lemma resolvable_stages_cons host fx rest :
  resolvable_stages host (fx :: rest) =
    match THREE host !! type fx with
    | Some shader => build_pass shader fx :: resolvable_stages host rest
    | None => resolvable_stages host rest
    end.
Proof. unfold resolvable_stages. simpl. by destruct (THREE host !! type fx). Qed.

Lemma skipped_cons host fx rest :
  skipped host (fx :: rest) =
    match THREE host !! type fx with
    | Some _ => skipped host rest
    | None => fx :: skipped host rest
    end.
Proof.
  unfold skipped. rewrite filter_cons.
  destruct (THREE host !! type fx); [|done].
  by rewrite decide_False by (intros Hn; apply Hn; eauto).
Qed.

Lemma resolved_cons host fx rest :
  filter (λ fx, is_Some (THREE host !! type fx)) (fx :: rest) =
    match THREE host !! type fx with
    | Some _ => fx :: filter (λ fx, is_Some (THREE host !! type fx)) rest
    | None => filter (λ fx, is_Some (THREE host !! type fx)) rest
    end.
Proof.
  rewrite filter_cons. destruct (THREE host !! type fx); [done|].
  by rewrite decide_False by (by intros [? ?]).
Qed.

Lemma passes_loop_stages host fxs : ∀ acc log,
  (passes_loop host fxs acc log).1 =
    match all_stages (resolvable_stages host fxs) with
    | Normal ps => Normal (acc ++ ps)%list
    | Throw e => Throw e
    end.
Proof.
  induction fxs as [|fx rest IH]; intros acc log.
  - simpl. by rewrite app_nil_r.
  - rewrite resolvable_stages_cons. simpl.
    destruct (THREE host !! type fx) as [shader|].
    + unfold mbind, Eff_bind, lift.
      destruct (build_pass shader fx) as [p|e]; simpl; [|done].
      rewrite IH. destruct (all_stages _); [|done].
      by rewrite <- app_assoc.
    + unfold mbind, Eff_bind, warn, modify. apply IH.
Qed.

Lemma passes_loop_log host fxs : ∀ acc log ps,
  (passes_loop host fxs acc log).1 = Normal ps →
  (passes_loop host fxs acc log).2 =
    (log ++ (unknown_effect <$> skipped host fxs))%list.
Proof.
  induction fxs as [|fx rest IH]; intros acc log ps.
  - simpl. by rewrite app_nil_r.
  - rewrite skipped_cons. simpl.
    destruct (THREE host !! type fx) as [shader|].
    + unfold mbind, Eff_bind, lift.
      destruct (build_pass shader fx) as [p|e]; simpl; [|done].
      apply IH.
    + unfold mbind, Eff_bind, warn, modify.
      intros H. rewrite (IH _ _ _ H). simpl.
      by rewrite <- app_assoc.
Qed.

Lemma resolvable_or_skipped host fxs :
  length (resolvable_stages host fxs) + length (skipped host fxs) = length fxs.
Proof.
  induction fxs as [|fx rest IH]; [done|].
  rewrite resolvable_stages_cons, skipped_cons.
  destruct (THREE host !! type fx); simpl; lia.
Qed.

Lemma build_pass_ids shader fx pass :
  build_pass shader fx = Normal pass →
  pass_uid pass = uid fx ∧ pass_type pass = type fx.
Proof.
  unfold build_pass. simpl. destruct (shader_uniforms shader) as [u|].
  - destruct (bind_params _ _ _); [|done]. by intros [= <-].
  - by intros [= <-].
Qed.

Lemma all_stages_ids host fxs : ∀ ps,
  all_stages (resolvable_stages host fxs) = Normal ps →
  (λ p, (pass_uid p, pass_type p)) <$> ps =
  (λ fx, (uid fx, type fx)) <$> filter (λ fx, is_Some (THREE host !! type fx)) fxs.
Proof.
  induction fxs as [|fx rest IH]; intros ps.
  - by intros [= <-].
  - rewrite resolvable_stages_cons, resolved_cons.
    destruct (THREE host !! type fx) as [shader|]; [|apply IH]. simpl.
    destruct (build_pass shader fx) as [p|e] eqn:Hp; [|done].
    destruct (all_stages _) as [ps'|e]; [|done].
    intros [= <-]. rewrite !fmap_cons, (IH _ eq_refl).
    by destruct (build_pass_ids _ _ _ Hp) as [-> ->].
Qed.

Lemma parseShaderPasses_stages host fxs log :
  (parseShaderPasses host (Object fxs) log).1 =
    all_stages (resolvable_stages host fxs).
Proof.
  unfold parseShaderPasses. destruct fxs as [|fx rest]; [done|].
  rewrite bool_decide_eq_false_2 by done.
  rewrite passes_loop_stages. by destruct (all_stages _).
Qed.

Lemma parseShaderPasses_log host fxs log ps :
  (parseShaderPasses host (Object fxs) log).1 = Normal ps →
  (parseShaderPasses host (Object fxs) log).2 =
    (log ++ (unknown_effect <$> skipped host fxs))%list.
Proof.
  unfold parseShaderPasses. destruct fxs as [|fx rest].
  - intros _. simpl. by rewrite app_nil_r.
  - rewrite bool_decide_eq_false_2 by done. apply passes_loop_log.
Qed.

(** C7: absent, [null] and empty input give the empty list and no
    warning. Otherwise the result is that of compiling, in input order,
    the stages of the descriptors the catalog resolves, the others being
    skipped; it is a list of stages whenever each of those stages can be
    built; and a returned list has as many stages as there are
    descriptors less the skipped ones, carries the uid and type of the
    resolved descriptors in their order, and comes with one warning for
    each skipped descriptor, in order. *)
Theorem unknown_effects_skipped host (log : list string) :
  parseShaderPasses host Absent log = (Normal [], log) ∧
  parseShaderPasses host IsNull log = (Normal [], log) ∧
  parseShaderPasses host (Object []) log = (Normal [], log) ∧
  ∀ fxs,
    let r := parseShaderPasses host (Object fxs) log in
    r.1 = all_stages (resolvable_stages host fxs) ∧
    (Forall (λ c, is_throw c = false) (resolvable_stages host fxs) →
     is_throw r.1 = false) ∧
    ∀ passes, r.1 = Normal passes →
      length passes = length fxs - length (skipped host fxs) ∧
      (λ p, (pass_uid p, pass_type p)) <$> passes =
        (λ fx, (uid fx, type fx)) <$>
          filter (λ fx, is_Some (THREE host !! type fx)) fxs ∧
      r.2 = (log ++ (unknown_effect <$> skipped host fxs))%list.
Proof.
  split_and!; try done.
  intros fxs r. subst r. split_and!.
  - apply parseShaderPasses_stages.
  - intros Hok. rewrite parseShaderPasses_stages. by apply all_stages_total.
  - intros passes Hr. split_and!.
    + rewrite parseShaderPasses_stages in Hr.
      apply all_stages_Normal in Hr as [-> _].
      pose proof (resolvable_or_skipped host fxs). lia.
    + rewrite parseShaderPasses_stages in Hr. by apply all_stages_ids.
    + by eapply parseShaderPasses_log.
Qed.

Lemma unknown_effects_skipped_witness :
  let fxs := [Sample.fx_unknown; Sample.fx_copy; Sample.fx_unknown;
              Sample.fx_tint Sample.matrix_spec] in
  let r := parseShaderPasses Sample.catalog (Object fxs) [] in
  ∃ passes,
    r.1 = Normal passes ∧ length passes = 2 ∧
    (λ p, (pass_uid p, pass_type p)) <$> passes =
      [(VStr "fx-copy", "Copy"); (VStr "fx-tint", "Tint")] ∧
    r.2 = ["Unknown image effect (NoSuchEffect)";
           "Unknown image effect (NoSuchEffect)"].
Proof.
  intros fxs r.
  destruct (unknown_effects_skipped Sample.catalog []) as (_ & _ & _ & H).
  destruct (H fxs) as (Hstages & Htotal & Hpasses).
  destruct r.1 as [passes|e] eqn:E.
  - exists passes. destruct (Hpasses passes E) as (H1 & H2 & H3).
    split; [reflexivity|]. split; [exact H1|]. split; [exact H2|exact H3].
  - exfalso. fold r in Htotal. rewrite E in Htotal.
    assert (true = false); [|discriminate].
    apply Htotal. vm_compute. repeat constructor.
Defined.

(** C2 fails on the code at a colour name of three letters: for
    [{ type: "THREE.Color", args: "red" }] the length test of line 121
    comes first and holds, and the value bound onto the uniform is
    [new THREE.Color("r", "e", "d")], not the colour named ["red"]. *)
Theorem color_name_of_three_letters_split :
  (∀ a b c : ascii,
     resolve_param
       (VObj [("type", VStr "THREE.Color");
              ("args", VStr (String a (String b (String c ""))))]) =
     Normal (VColor3 (VStr (String a "")) (VStr (String b ""))
                     (VStr (String c "")))) ∧
  resolve_param Sample.color_red =
    Normal (VColor3 (VStr "r") (VStr "e") (VStr "d")) ∧
  match (parseShaderPasses Sample.catalog
           (Object [Sample.fx_tint Sample.color_red]) []).1 with
  | Normal [pass] =>
      slot_value "color" pass = Some (VColor3 (VStr "r") (VStr "e") (VStr "d"))
  | _ => False
  end.
Proof.
  split_and!.
  - intros a b c.
    erewrite resolve_param_tagged; [|reflexivity|reflexivity].
    apply color_of_three_characters.
  - reflexivity.
  - vm_compute. reflexivity.
Qed.

(** C9: a declared parameter value that is an object with a [type] and
    an [args] property, the type being none of ["THREE.Color"],
    ["THREE.Vector2"], ["THREE.Vector3"], resolves without error to that
    same object; binding it onto an existing uniform slot completes and
    the slot then holds the object; and in every stage built from the
    descriptor the slot of that name holds it. *)
Theorem untyped_spec_bound_raw (fx : FX) (param : string)
    (props : list (string * value)) (tag args : value) :
  assoc param (params fx) = Some (VObj props) →
  assoc "type" props = Some tag →
  assoc "args" props = Some args →
  strict_eq_str tag "THREE.Color" = false →
  strict_eq_str tag "THREE.Vector2" = false →
  strict_eq_str tag "THREE.Vector3" = false →
  resolve_param (VObj props) = Normal (VObj props) ∧
  (∀ u : gmap string value,
     is_Some (u !! param) →
     bind_param fx param u = Normal (<[param := VObj props]> u)) ∧
  (∀ shader pass,
     is_Some (shader_uniforms shader) →
     build_pass shader fx = Normal pass →
     slot_value param pass = Some (VObj props)).
Proof.
  intros Hp Ht Ha H1 H2 H3.
  assert (Hr : resolve_param (VObj props) = Normal (VObj props)).
  { rewrite (resolve_param_tagged _ _ _ Ht Ha). by apply untyped_tag_kept. }
  split_and!; [done| |].
  - intros u [old Hu]. unfold bind_param, declared. rewrite Hp. simpl.
    by rewrite Hr, Hu.
  - intros shader pass [u Hu] Hpass.
    apply (build_pass_Normal _ _ _ _ Hu) in Hpass as (u' & Hrun & ->).
    destruct (bind_params_Normal _ _ _ _ Hrun param) as [Hin _].
    destruct Hin as (_ & v & Hv & Hslot); [by eapply assoc_Some_elem|].
    unfold declared in Hv. rewrite Hp in Hv. simpl in Hv.
    rewrite Hr in Hv. injection Hv as <-. done.
Qed.

Lemma untyped_spec_bound_raw_witness :
  resolve_param Sample.matrix_spec = Normal Sample.matrix_spec ∧
  match build_pass Sample.tint (Sample.fx_tint Sample.matrix_spec) with
  | Normal pass => slot_value "color" pass = Some Sample.matrix_spec
  | Throw _ => False
  end.
Proof.
  destruct (untyped_spec_bound_raw (Sample.fx_tint Sample.matrix_spec) "color"
              [("type", VStr "THREE.Matrix3"); ("args", VArr [VNum 1])]
              (VStr "THREE.Matrix3") (VArr [VNum 1]))
    as (Hr & _ & Hpass); try reflexivity.
  split; [exact Hr|].
  destruct (build_pass Sample.tint (Sample.fx_tint Sample.matrix_spec))
    as [pass|e] eqn:E.
  - apply (Hpass Sample.tint pass); [by eexists|exact E].
  - vm_compute in E. discriminate E.
Defined.

(** *** Names that resolve on a plain uniforms object *)

Lemma plain_uniforms_is_Some (declared : gmap string value) name :
  is_Some (plain_uniforms declared !! name) ↔
  is_Some (declared !! name) ∨ name ∈ Object_prototype_names.
Proof.
  unfold plain_uniforms. rewrite lookup_union_is_Some.
  assert (Hin : is_Some ((list_to_map ((λ n, (n, VUndefined)) <$>
                            Object_prototype_names) : gmap string value) !! name)
                ↔ name ∈ Object_prototype_names).
  { rewrite <- not_eq_None_Some, <- not_elem_of_list_to_map.
    rewrite <- list_fmap_compose, list_fmap_id.
    destruct (decide (name ∈ Object_prototype_names)); tauto. }
  by rewrite Hin.
Qed.





End PostProcessingProps.

(** ** Further properties of FORGE.Media *)

Module MediaExtra.
Import JS Media MediaProps.

#[local] Arguments _notifyLoadComplete : simpl never.
#[local] Arguments parse_image : simpl never.
#[local] Arguments parse_video : simpl never.
#[local] Arguments collect_level_urls : simpl never.
#[local] Arguments load_video : simpl never.

(** *** Statements that leave a part of the media alone *)

Section KeepsPart.
Context {X : Type} (f : t → X).
Hypothesis f_displayObject : ∀ d m, f (set_displayObject d m) = f m.
Hypothesis f_config : ∀ c m, f (set_config c m) = f m.

Lemma part_ret {A} (a : A) : keeps_part f (mret a).
Proof. by intros m. Qed.

Lemma part_throw {A} e : keeps_part f (throw (A:=A) e).
Proof. by intros m. Qed.

Lemma part_lift {A} (c : completion A) : keeps_part f (lift c).
Proof. by intros m. Qed.

Lemma part_this : keeps_part f this.
Proof. by intros m. Qed.

Lemma part_bind {A B} (c : M A) (k : A → M B) :
  keeps_part f c → (∀ a, keeps_part f (k a)) → keeps_part f (c ≫= k).
Proof.
  intros Hc Hk m. unfold mbind, Eff_bind. specialize (Hc m).
  destruct (c m) as [[a|e] m']; simpl in *; [|done].
  by rewrite Hk.
Qed.

Lemma part_if {A} (b : bool) (c1 c2 : M A) :
  keeps_part f c1 → keeps_part f c2 → keeps_part f (if b then c1 else c2).
Proof. by destruct b. Qed.

Lemma part_set_displayObject d : keeps_part f (modify (set_displayObject d)).
Proof. intros m. apply f_displayObject. Qed.

Lemma part_on_displayObject g : keeps_part f (on_displayObject g).
Proof.
  intros m. unfold on_displayObject.
  destruct (_displayObject m); simpl; [apply f_displayObject|done].
Qed.

Lemma part_read_source : keeps_part f read_source.
Proof.
  intros m. unfold read_source.
  destruct (_config m) as [| |c]; try done. by destruct (source c).
Qed.

Lemma part_write_source g : keeps_part f (write_source g).
Proof. intros m. apply f_config. Qed.

Ltac part :=
  repeat first
    [ apply part_ret | apply part_throw | apply part_lift | apply part_this
    | apply part_set_displayObject | apply part_on_displayObject
    | apply part_read_source | apply part_write_source
    | apply part_bind; [|intros ?]
    | apply part_if
    | match goal with
      | |- keeps_part _ (match ?x with _ => _ end) => destruct x
      end ].

Lemma part_parse_image host : keeps_part f (parse_image host).
Proof. unfold parse_image. part. Qed.

Lemma part_levels_loop host lvls : keeps_part f (levels_loop host lvls).
Proof.
  induction lvls as [|level rest IH]; simpl; [apply part_ret|].
  unfold push_url. part; apply IH.
Qed.

Lemma part_collect_level_urls host : keeps_part f (collect_level_urls host).
Proof. unfold collect_level_urls. part. apply part_levels_loop. Qed.

Lemma part_load_video host : keeps_part f (load_video host).
Proof. unfold load_video. part. Qed.

Lemma part_parse_video host : keeps_part f (parse_video host).
Proof.
  unfold parse_video. apply part_bind; [apply part_collect_level_urls|].
  intros _. apply part_load_video.
Qed.

End KeepsPart.

Lemma signal_state_parse_image host m :
  signal_state (parse_image host m).2 = signal_state m.
Proof. by apply part_parse_image. Qed.

Lemma signal_state_parse_video host m :
  signal_state (parse_video host m).2 = signal_state m.
Proof. by apply part_parse_video. Qed.

(** *** What the branches leave in [_displayObject] *)

Lemma parse_image_listener host m d :
  _displayObject (parse_image host m).2 = Some d →
  _displayObject m = Some d ∨
  (do_class d = Image ∧ do_listener d = Some OnImageLoadComplete).
Proof.
  unfold parse_image. run.
  destruct (read_source m) as [[s|e] m'] eqn:E.
  2:{ pose proof (part_read_source _displayObject m) as H.
      rewrite E in H. simpl in H. run. rewrite H. by left. }
  assert (Hm : m' = m).
  { unfold read_source in E. destruct (_config m) as [| |c]; try done.
    destruct (source c); congruence. }
  subst m'. run.
  destruct (truthy (url s)); run; [|by left].
  destruct (strict_eq_str (format s) (MediaFormat_EQUIRECTANGULAR host)); run.
  { unfold on_displayObject. simpl. intros [= <-]. by right. }
  destruct (_ || _); run; [|by left].
  unfold on_displayObject. simpl. intros [= <-]. by right.
Qed.

Lemma load_video_listener host m d :
  _displayObject (load_video host m).2 = Some d →
  _displayObject m = Some d ∨
  (do_class d ≠ Image ∧ do_listener d = Some OnLoadedMetaDataHandler).
Proof.
  unfold load_video. run.
  destruct (read_source m) as [[s|e] m'] eqn:E.
  2:{ pose proof (part_read_source _displayObject m) as H.
      rewrite E in H. simpl in H. run. rewrite H. by left. }
  assert (Hm : m' = m).
  { unfold read_source in E. destruct (_config m) as [| |c]; try done.
    destruct (source c); congruence. }
  subst m'. run.
  destruct (bool_decide (typeof (url s) ≠ "string")); run.
  - destruct (get_prop (url s) "length") as [len|e]; run; [|by left].
    destruct (strict_eq_num len 0); run; [by left|].
    video_object; first [by left | by (intros [= <-]; right)].
  - video_object; first [by left | by (intros [= <-]; right)].
Qed.

Lemma parse_video_listener host m d :
  _displayObject (parse_video host m).2 = Some d →
  _displayObject m = Some d ∨
  (do_class d ≠ Image ∧ do_listener d = Some OnLoadedMetaDataHandler).
Proof.
  unfold parse_video, mbind, Eff_bind.
  pose proof (part_collect_level_urls _displayObject
                (λ _ _, eq_refl) host m) as Hk.
  destruct (collect_level_urls host m) as [[[]|e] m1]; simpl in *.
  - intros H. apply load_video_listener in H. by rewrite Hk in H.
  - rewrite Hk. by left.
Qed.

(** *** The handlers *)

Lemma defined_not_null_not_nullish v :
  typeof v ≠ "undefined" → is_null v = false → nullish v = false.
Proof. by destruct v. Qed.

Lemma set_displayObject_same m d :
  _displayObject m = Some d → set_displayObject (Some d) m = m.
Proof. destruct m. simpl. by intros ->. Qed.

Lemma handler_run host m d e :
  _displayObject m = Some d →
  _onLoadComplete m = Some e →
  typeof (_options m) ≠ "undefined" →
  _onLoadedMetaDataHandler host m =
    (Normal tt,
     count_dispatch (set_loaded true (set_displayObject
       (Some (if is_null (_options m) then d
              else with_options host (_options m) d)) m))).
Proof.
  intros Hd He Ho. unfold _onLoadedMetaDataHandler. run.
  destruct (is_null (_options m)) eqn:Hn; run.
  - rewrite (notify_run _ _ He). by rewrite set_displayObject_same.
  - pose proof (defined_not_null_not_nullish _ Ho Hn) as Hnn.
    rewrite !(get_prop_not_nullish _ _ Hnn).
    unfold on_displayObject. run. rewrite Hd. run.
    unfold with_options.
    destruct (strict_eq_bool _ _ && strict_eq_str _ _); run;
      by erewrite notify_run.
Qed.

Lemma with_options_keeps host o d :
  do_listener (with_options host o d) = do_listener d ∧
  do_class (with_options host o d) = do_class d ∧
  do_key (with_options host o d) = do_key d ∧
  do_url (with_options host o d) = do_url d ∧
  do_ambisonic (with_options host o d) = do_ambisonic d.
Proof. unfold with_options. by destruct (_ && _). Qed.

(** The display object a delivered signal leaves. *)
Lemma deliver_run host m d h e :
  _displayObject m = Some d →
  do_listener d = Some h →
  _onLoadComplete m = Some e →
  typeof (_options m) ≠ "undefined" →
  ∃ d',
    deliver host h m =
      (Normal tt,
       count_dispatch (set_loaded true (set_displayObject (Some d') m))) ∧
    d' = match h with
         | OnImageLoadComplete => do_set_listener None d
         | OnLoadedMetaDataHandler =>
             if is_null (_options m) then do_set_listener None d
             else with_options host (_options m) (do_set_listener None d)
         end.
Proof.
  intros Hd Hl He Ho. eexists. split; [|reflexivity].
  unfold deliver, mbind, Eff_bind, on_displayObject. rewrite Hd.
  destruct h.
  - unfold _onImageLoadComplete. by erewrite notify_run.
  - by erewrite handler_run.
Qed.

(** *** The readiness bookkeeping *)

Lemma quiet_consistent m :
  fired m = 0 → _loaded m = false →
  is_Some (_onLoadComplete m) → typeof (_options m) ≠ "undefined" →
  consistent m.
Proof.
  intros Hf Hl Hd Ho. split; rewrite ?Hf, ?Hl; try done; lia.
Qed.

Lemma classified_quiet viewer c :
  fired (classified viewer c) = 0 ∧ _loaded (classified viewer c) = false ∧
  is_Some (_onLoadComplete (classified viewer c)) ∧
  typeof (_options (classified viewer c)) ≠ "undefined" ∧
  _displayObject (classified viewer c) = None.
Proof.
  split_and!; try done. simpl. case_bool_decide; [done|]. by simpl.
Qed.

Lemma signal_state_quiet m m' :
  signal_state m' = signal_state m →
  fired m = 0 → _loaded m = false →
  is_Some (_onLoadComplete m) → typeof (_options m) ≠ "undefined" →
  consistent m'.
Proof.
  unfold signal_state. intros [= H1 H2 H3 H4] ????.
  apply quiet_consistent; congruence.
Qed.

Lemma notified_consistent viewer c :
  consistent (count_dispatch (set_loaded true (classified viewer c))).
Proof.
  destruct (classified_quiet viewer c) as (? & ? & ? & ? & ?).
  split; simpl; try done; lia.
Qed.

Lemma new_consistent host viewer c : consistent (new host viewer c).2.
Proof.
  destruct c as [| |[u ty src o]].
  - rewrite new_absent. split; simpl; try done; lia.
  - rewrite new_null. split; simpl; try done; lia.
  - assert (Hq : ∀ c', consistent (classified viewer c')).
    { intros c'. destruct (classified_quiet viewer c') as (? & ? & ? & ? & ?).
      by apply quiet_consistent. }
    assert (Hs : ∀ c' m', signal_state m' = signal_state (classified viewer c') →
                 consistent m').
    { intros c' m' H. destruct (classified_quiet viewer c') as (? & ? & ? & ? & ?).
      by eapply signal_state_quiet. }
    destruct src as [| |s].
    + rewrite new_source_absent. destruct strict_eq_str; [|apply Hq].
      rewrite classified_notify. apply notified_consistent.
    + rewrite new_source_null. apply Hq.
    + rewrite new_source_object.
      destruct strict_eq_str.
      { rewrite classified_notify. apply notified_consistent. }
      destruct strict_eq_str.
      { eapply Hs, signal_state_parse_image. }
      destruct strict_eq_str; [|apply Hq].
      eapply Hs, signal_state_parse_video.
Qed.

Lemma destroy_run m :
  destroy m =
    (Normal tt,
     set_viewer None (set_onLoadComplete None (set_displayObject None
       (match _displayObject m with
        | Some d => count_release d m
        | None => m
        end)))).
Proof.
  unfold destroy. run.
  destruct (_displayObject m) eqn:Ed; run;
    destruct (_onLoadComplete m) eqn:Eo; run; try done;
    destruct m; simpl in *; by subst.
Qed.

Lemma step_consistent host m m' :
  consistent m → step host m m' → consistent m'.
Proof.
  intros Hc Hstep. destruct Hstep as [m0 d h Hd Hl|m0];
    destruct Hc as [H1 H2 H3 H4 H5].
  - destruct (H4 (ltac:(eauto))) as [e He].
    assert (Hf : fired m0 = 0).
    { destruct (decide (fired m0 = 1)) as [Hone|]; [|lia].
      specialize (H5 Hone d Hd). congruence. }
    destruct (deliver_run host m0 d h e Hd Hl He H3) as (d' & -> & Hd').
    split; simpl; rewrite ?Hf, ?He; try done; try lia.
    intros _ d0 [= <-]. subst d'.
      destruct h; [done|]. destruct (is_null _); [done|].
      by destruct (with_options_keeps host (_options m0) (do_set_listener None d))
        as (-> & _).
  - rewrite destroy_run.
    split; simpl; try (by destruct (_displayObject m0)); by intros [? ?].
Qed.

Lemma rtc_consistent host m m' :
  consistent m → rtc (step host) m m' → consistent m'.
Proof. induction 2; eauto using step_consistent. Qed.

Lemma sample_distinct : distinct_types Sample.host.
Proof. unfold distinct_types. simpl. split_and!; discriminate. Qed.

Lemma defaulted_fields host s :
  url (defaulted host s) = url s ∧ levels (defaulted host s) = levels s ∧
  streaming (defaulted host s) = streaming s ∧
  format (defaulted host s) =
    (if bool_decide (typeof (format s) = "undefined")
     then VStr (MediaFormat_FLAT host) else format s).
Proof. unfold defaulted. by destruct (bool_decide _), s. Qed.

(** *** Image descriptors *)

(** X1: An Image descriptor with a url and one of the three supported
    formats, or none, gets an image object keyed by the uid, with that
    url and the load listener; the constructor completes and nothing is
    notified yet. *)
Theorem image_constructs host viewer u o s :
  distinct_types host →
  truthy (url s) = true →
  typeof (format s) = "undefined" ∨
    strict_eq_str (format s) (MediaFormat_EQUIRECTANGULAR host)
    || strict_eq_str (format s) (MediaFormat_CUBE host)
    || strict_eq_str (format s) (MediaFormat_FLAT host) = true →
  let r := new host viewer
             (Object (mkConfig u (VStr (MediaType_IMAGE host)) (Object s) o)) in
  r.1 = Normal tt ∧
  displayObject r.2 =
    Some (do_set_listener (Some OnImageLoadComplete) (new_Image u (url s))) ∧
  loaded r.2 = false ∧ fired r.2 = 0.
Proof.
  intros (Hgi & _ & _) Hu Hf r. subst r.
  rewrite new_source_object.
  rewrite strict_eq_str_other by done. rewrite strict_eq_str_same.
  unfold parse_image, mbind, Eff_bind.
  erewrite read_source_run by reflexivity.
  destruct (defaulted_fields host s) as (-> & _ & _ & ->).
  rewrite Hu. run.
  destruct (bool_decide (typeof (format s) = "undefined")) eqn:E.
  - simpl.
    rewrite (bool_decide_eq_true_2
               (MediaFormat_FLAT host = MediaFormat_FLAT host)) by done.
    rewrite orb_true_r.
    by destruct (bool_decide (MediaFormat_FLAT host =
                              MediaFormat_EQUIRECTANGULAR host)).
  - destruct Hf as [Hf|Hf]; [by apply bool_decide_eq_false in E|].
    destruct (strict_eq_str (format s) (MediaFormat_EQUIRECTANGULAR host));
      [by unfold on_displayObject|].
    simpl in Hf. rewrite Hf. by unfold on_displayObject.
Qed.

Lemma image_constructs_witness :
  let r := new Sample.host Sample.viewer (Object Sample.image) in
  r.1 = Normal tt ∧
  displayObject r.2 =
    Some (do_set_listener (Some OnImageLoadComplete)
            (new_Image (VStr "i") (VStr "a.jpg"))) ∧
  loaded r.2 = false ∧ fired r.2 = 0.
Proof.
  apply (image_constructs Sample.host Sample.viewer (VStr "i") VUndefined
           (with_url (VStr "a.jpg") Sample.no_source)).
  - exact sample_distinct.
  - reflexivity.
  - left. reflexivity.
Defined.

(** X2: An Image descriptor with a url and a format that is given and is
    none of the three makes the constructor throw, with no display
    object. *)
Theorem image_unsupported_format_throws host viewer u o s :
  distinct_types host →
  truthy (url s) = true →
  typeof (format s) ≠ "undefined" →
  strict_eq_str (format s) (MediaFormat_EQUIRECTANGULAR host)
    || strict_eq_str (format s) (MediaFormat_CUBE host)
    || strict_eq_str (format s) (MediaFormat_FLAT host) = false →
  let r := new host viewer
             (Object (mkConfig u (VStr (MediaType_IMAGE host)) (Object s) o)) in
  r.1 = Throw (ThrownString "Media format not supported") ∧
  displayObject r.2 = None ∧ loaded r.2 = false ∧ fired r.2 = 0.
Proof.
  intros (Hgi & _ & _) Hu Hd Hf r. subst r.
  rewrite new_source_object.
  rewrite strict_eq_str_other by done. rewrite strict_eq_str_same.
  unfold parse_image, mbind, Eff_bind.
  erewrite read_source_run by reflexivity.
  destruct (defaulted_fields host s) as (-> & _ & _ & ->).
  rewrite Hu. run. rewrite bool_decide_eq_false_2 by done.
  apply orb_false_elim in Hf as [Hf ->].
  apply orb_false_elim in Hf as [-> ->]. done.
Qed.

Lemma image_unsupported_format_throws_witness :
  let r := new Sample.host Sample.viewer (Object Sample.image_hemisphere) in
  r.1 = Throw (ThrownString "Media format not supported") ∧
  displayObject r.2 = None ∧ loaded r.2 = false ∧ fired r.2 = 0.
Proof.
  apply (image_unsupported_format_throws Sample.host Sample.viewer (VStr "i")
           VUndefined
           (mkSource (VStr "a.jpg") VUndefined (VStr "hemisphere") VUndefined)).
  - exact sample_distinct.
  - reflexivity.
  - discriminate.
  - reflexivity.
Defined.

(** *** Video descriptors *)

Lemma new_video host viewer u o s :
  distinct_types host →
  isArray (levels s) = false →
  new host viewer
    (Object (mkConfig u (VStr (MediaType_VIDEO host)) (Object s) o)) =
  load_video host
    (classified viewer
       (mkConfig u (VStr (MediaType_VIDEO host)) (Object (defaulted host s)) o)).
Proof.
  intros (_ & Hgv & Hiv) Hl.
  rewrite new_source_object.
  rewrite !strict_eq_str_other by done. rewrite strict_eq_str_same.
  unfold parse_video, mbind, Eff_bind.
  erewrite collect_level_urls_skip; [done|reflexivity|].
  by destruct (defaulted_fields host s) as (_ & -> & _).
Qed.

(** X3: A Video descriptor with a string url and no levels array: when
    [streaming] is a string that is the DASH tag up to letter case, the
    media gets a DASH video object; when [streaming] is absent or any
    other string, it gets an HTML5 video object, ambisonic exactly when
    the scene has the uid as sound target and is ambisonic. Either is
    told to load the url and is listened to, and nothing is notified
    yet. *)
Theorem video_object_selected host viewer u o s a :
  distinct_types host →
  isArray (levels s) = false →
  url s = VStr a →
  typeof (streaming s) = "undefined" ∨ typeof (streaming s) = "string" →
  let r := new host viewer
             (Object (mkConfig u (VStr (MediaType_VIDEO host)) (Object s) o)) in
  let dash := match streaming s with
              | VStr tag => bool_decide (lower tag = VideoFormat_DASH host)
              | _ => false
              end in
  r.1 = Normal tt ∧ loaded r.2 = false ∧ fired r.2 = 0 ∧
  ∃ d, displayObject r.2 = Some d ∧
       do_class d = (if dash then VideoDash else VideoHTML5) ∧
       do_ambisonic d =
         (if dash then false
          else scene_hasSoundTarget viewer u && scene_isAmbisonic viewer) ∧
       do_key d = u ∧ do_url d = VStr a ∧
       do_listener d = Some OnLoadedMetaDataHandler.
Proof.
  intros Hd Hl Hu Hs r dash. subst r dash.
  rewrite new_video by done.
  unfold load_video, mbind, Eff_bind.
  erewrite read_source_run by reflexivity.
  destruct (defaulted_fields host s) as (-> & _ & -> & _).
  rewrite Hu. run.
  destruct (streaming s) as [| | | |tag| | | | | |];
    (destruct Hs as [Hs|Hs]; simpl in Hs; try discriminate Hs); run.
  - unfold on_displayObject. simpl. split_and!; try done. by eexists.
  - destruct (bool_decide (lower tag = VideoFormat_DASH host)); run;
      unfold on_displayObject; simpl; split_and!; try done; by eexists.
Qed.

Lemma video_object_selected_witness :
  let r := new Sample.host Sample.viewer (Object Sample.video_dash) in
  r.1 = Normal tt ∧ loaded r.2 = false ∧ fired r.2 = 0 ∧
  ∃ d, displayObject r.2 = Some d ∧
       do_class d = VideoDash ∧ do_ambisonic d = false ∧
       do_key d = VStr "v" ∧ do_url d = VStr "m.mpd" ∧
       do_listener d = Some OnLoadedMetaDataHandler.
Proof.
  apply (video_object_selected Sample.host Sample.viewer (VStr "v") VUndefined
           (mkSource (VStr "m.mpd") VUndefined VUndefined (VStr "DASH")) "m.mpd").
  - exact sample_distinct.
  - reflexivity.
  - reflexivity.
  - right. reflexivity.
Defined.

(** X4: A Video descriptor with a string url, no levels array, and a
    [streaming] value that is given and is no string makes the
    constructor throw a [TypeError] (line 194 calls [toLowerCase] on it),
    with no display object. *)
Theorem video_streaming_not_string_throws host viewer u o s a :
  distinct_types host →
  isArray (levels s) = false →
  url s = VStr a →
  typeof (streaming s) ≠ "undefined" →
  typeof (streaming s) ≠ "string" →
  let r := new host viewer
             (Object (mkConfig u (VStr (MediaType_VIDEO host)) (Object s) o)) in
  (∃ msg, r.1 = Throw (TypeError msg)) ∧
  displayObject r.2 = None ∧ loaded r.2 = false ∧ fired r.2 = 0.
Proof.
  intros Hd Hl Hu Hs1 Hs2 r. subst r.
  rewrite new_video by done.
  unfold load_video, mbind, Eff_bind.
  erewrite read_source_run by reflexivity.
  destruct (defaulted_fields host s) as (-> & _ & -> & _).
  rewrite Hu. run.
  rewrite bool_decide_eq_true_2 by done.
  destruct (streaming s); try done; run; split_and!; try done; by eexists.
Qed.

Lemma video_streaming_not_string_throws_witness :
  let r := new Sample.host Sample.viewer (Object Sample.video_streaming_number) in
  (∃ msg, r.1 = Throw (TypeError msg)) ∧
  displayObject r.2 = None ∧ loaded r.2 = false ∧ fired r.2 = 0.
Proof.
  apply (video_streaming_not_string_throws Sample.host Sample.viewer (VStr "v")
           VUndefined
           (mkSource (VStr "m.mp4") VUndefined VUndefined (VNum 5)) "m.mp4").
  - exact sample_distinct.
  - reflexivity.
  - reflexivity.
  - discriminate.
  - discriminate.
Defined.

(** X5: A Video descriptor with a source that has neither a levels array
    nor a url makes the constructor throw a [TypeError] (line 189 reads
    the length of the url), with no display object. *)
Theorem video_without_url_throws host viewer u o s :
  distinct_types host →
  isArray (levels s) = false →
  nullish (url s) = true →
  let r := new host viewer
             (Object (mkConfig u (VStr (MediaType_VIDEO host)) (Object s) o)) in
  (∃ msg, r.1 = Throw (TypeError msg)) ∧
  displayObject r.2 = None ∧ loaded r.2 = false ∧ fired r.2 = 0.
Proof.
  intros Hd Hl Hu r. subst r.
  rewrite new_video by done.
  unfold load_video, mbind, Eff_bind.
  erewrite read_source_run by reflexivity.
  destruct (defaulted_fields host s) as (-> & _ & _ & _).
  destruct (url s); try done; run; split_and!; try done; by eexists.
Qed.

Lemma video_without_url_throws_witness :
  let r := new Sample.host Sample.viewer (Object Sample.video_no_url) in
  (∃ msg, r.1 = Throw (TypeError msg)) ∧
  displayObject r.2 = None ∧ loaded r.2 = false ∧ fired r.2 = 0.
Proof.
  apply (video_without_url_throws Sample.host Sample.viewer (VStr "v")
           VUndefined Sample.no_source).
  - exact sample_distinct.
  - reflexivity.
  - reflexivity.
Defined.

(** *** Descriptors that resolve to nothing *)

(** X6: A descriptor that is no Grid and has no source, or has a source and
    a type that is none of Grid, Image and Video: the constructor
    completes, constructs nothing and notifies nothing, and nothing that
    happens to the media later notifies either. *)
Theorem unresolved_descriptor_stays_silent host viewer u ty src o :
  strict_eq_str ty (MediaType_GRID host) = false →
  match src with
  | Absent => True
  | IsNull => False
  | Object _ =>
      strict_eq_str ty (MediaType_IMAGE host) = false ∧
      strict_eq_str ty (MediaType_VIDEO host) = false
  end →
  let r := new host viewer (Object (mkConfig u ty src o)) in
  r.1 = Normal tt ∧ displayObject r.2 = None ∧
  ∀ m', rtc (step host) r.2 m' →
        displayObject m' = None ∧ loaded m' = false ∧ fired m' = 0.
Proof.
  intros Hg Hsrc r.
  assert (H : r.1 = Normal tt ∧ _displayObject r.2 = None ∧
              _loaded r.2 = false ∧ fired r.2 = 0).
  { subst r. destruct src as [| |s]; [|done|].
    - by rewrite new_source_absent, Hg.
    - destruct Hsrc as [Hi Hv]. by rewrite new_source_object, Hg, Hi, Hv. }
  destruct H as (H1 & H2 & H3 & H4). split_and!; try done.
  intros m' Hm'. destruct (rtc_without_displayObject _ _ _ Hm' H2) as (? & ? & ?).
  unfold displayObject, loaded. split_and!; congruence.
Qed.

Lemma unresolved_descriptor_stays_silent_witness :
  let r := new Sample.host Sample.viewer (Object Sample.unknown_type) in
  r.1 = Normal tt ∧ displayObject r.2 = None ∧
  ∀ m', rtc (step Sample.host) r.2 m' →
        displayObject m' = None ∧ loaded m' = false ∧ fired m' = 0.
Proof.
  apply (unresolved_descriptor_stays_silent Sample.host Sample.viewer (VStr "m")
           (VStr "model")
           (Object (with_url (VStr "a.obj") Sample.no_source)) VUndefined).
  - reflexivity.
  - split; reflexivity.
Defined.

(** X7: A descriptor with [source: null] makes the constructor throw a
    [TypeError] whatever its type, after the uid, the type and the options
    were recorded: line 114 reads [config.source.format] before the test
    for [null] of line 125, which no [null] source reaches. *)
Theorem null_source_throws host viewer u ty o :
  let r := new host viewer (Object (mkConfig u ty IsNull o)) in
  r.1 = Throw (TypeError "Cannot read property 'format' of null") ∧
  displayObject r.2 = None ∧ loaded r.2 = false ∧ fired r.2 = 0 ∧
  _uid r.2 = u ∧ _type r.2 = ty ∧
  config r.2 = Object (mkConfig u ty IsNull o).
Proof. intros r. subst r. by rewrite new_source_null. Qed.

(** *** Delivery of the display object's signal *)

Lemma new_with_displayObject host viewer c d :
  _displayObject (new host viewer c).2 = Some d →
  (∃ c', signal_state (new host viewer c).2 = signal_state (classified viewer c')) ∧
  do_listener d = Some (match do_class d with
                        | Image => OnImageLoadComplete
                        | _ => OnLoadedMetaDataHandler
                        end).
Proof.
  destruct c as [| |[u ty src o]]; [done|done|].
  destruct src as [| |s].
  - rewrite new_source_absent. destruct strict_eq_str; [|done].
    by rewrite classified_notify.
  - by rewrite new_source_null.
  - rewrite new_source_object.
    destruct strict_eq_str; [by rewrite classified_notify|].
    destruct strict_eq_str.
    { intros H. split; [eexists; apply signal_state_parse_image|].
      apply parse_image_listener in H as [H|[-> ->]]; done. }
    destruct strict_eq_str; [|done].
    intros H. split; [eexists; apply signal_state_parse_video|].
    apply parse_video_listener in H as [H|[Hc ->]]; [done|].
    by destruct (do_class d).
Qed.

(** X8: Whenever the constructor leaves a display object, nothing is
    notified yet and the object has its listener: the image handler for
    an image, the metadata handler for a video. Delivering the signal to
    it completes, sets the loaded flag, dispatches [onLoadComplete] once
    and removes the listener, the display object being the same otherwise
    (class, key and url). *)
Theorem signal_delivery_notifies host viewer c d :
  displayObject (new host viewer c).2 = Some d →
  let m := (new host viewer c).2 in
  let h := match do_class d with
           | Image => OnImageLoadComplete
           | _ => OnLoadedMetaDataHandler
           end in
  loaded m = false ∧ fired m = 0 ∧ do_listener d = Some h ∧
  (deliver host h m).1 = Normal tt ∧
  loaded (deliver host h m).2 = true ∧ fired (deliver host h m).2 = 1 ∧
  ∃ d', displayObject (deliver host h m).2 = Some d' ∧
        do_listener d' = None ∧ do_class d' = do_class d ∧
        do_key d' = do_key d ∧ do_url d' = do_url d.
Proof.
  intros Hd m h. unfold displayObject in Hd.
  destruct (new_with_displayObject _ _ _ _ Hd) as [[c' Hs] Hl].
  fold m in Hs, Hd. fold h in Hl.
  destruct (classified_quiet viewer c') as (Hf & Hlo & [e He] & Ho & _).
  unfold signal_state in Hs. injection Hs as Hs1 Hs2 Hs3 Hs4.
  destruct (deliver_run host m d h e Hd Hl) as (d' & -> & Hd');
    [by rewrite Hs3|by rewrite Hs4|].
  unfold loaded, displayObject. simpl.
  split_and!; try congruence.
  exists d'. split; [done|]. subst d'.
  destruct h; [done|]. destruct (is_null _); [done|].
  by destruct (with_options_keeps host (_options m) (do_set_listener None d))
    as (-> & -> & -> & -> & _).
Qed.

Lemma signal_delivery_notifies_witness :
  let m := (new Sample.host Sample.viewer (Object Sample.video_with_options)).2 in
  loaded m = false ∧ fired m = 0 ∧
  (deliver Sample.host OnLoadedMetaDataHandler m).1 = Normal tt ∧
  loaded (deliver Sample.host OnLoadedMetaDataHandler m).2 = true ∧
  fired (deliver Sample.host OnLoadedMetaDataHandler m).2 = 1.
Proof.
  destruct (signal_delivery_notifies Sample.host Sample.viewer
              (Object Sample.video_with_options)
              (do_set_listener (Some OnLoadedMetaDataHandler)
                 (do_set_url (VStr "m.mp4") (new_VideoHTML5 (VStr "v") false))))
    as (H1 & H2 & _ & H4 & H5 & H6 & _); [reflexivity|].
  split_and!; [exact H1|exact H2|exact H4|exact H5|exact H6].
Defined.

(** X9: Over the whole life of a media, whatever the descriptor and whether
    the constructor threw or not: [onLoadComplete] is dispatched at most
    once, and the loaded flag is set exactly when it was dispatched. *)
Theorem notified_at_most_once host viewer c m :
  rtc (step host) (new host viewer c).2 m →
  (fired m ≤ 1)%nat ∧ (loaded m = true ↔ fired m = 1).
Proof.
  intros Hm.
  destruct (rtc_consistent host _ _ (new_consistent host viewer c) Hm)
    as [H1 H2 _ _ _].
  split; [done|]. unfold loaded. rewrite H2.
  by rewrite bool_decide_eq_true.
Qed.

Lemma notified_at_most_once_witness :
  let m0 := (new Sample.host Sample.viewer (Object Sample.video_with_options)).2 in
  let m1 := (deliver Sample.host OnLoadedMetaDataHandler m0).2 in
  let m2 := (destroy m1).2 in
  (fired m2 ≤ 1)%nat ∧ (loaded m2 = true ↔ fired m2 = 1).
Proof.
  intros m0 m1 m2.
  apply (notified_at_most_once Sample.host Sample.viewer
           (Object Sample.video_with_options) m2).
  eapply rtc_l; [|eapply rtc_l; [|apply rtc_refl]].
  - eapply (step_signal Sample.host m0); reflexivity.
  - apply step_destroy.
Defined.

(** *** The metadata handler *)

(** X10: With options that are not [null], the metadata handler completes and
    leaves a display object whose volume is a number (the option, or 1),
    whose loop flag is a boolean (the option, or true), whose current
    time is a number (the start time option, or 0), and whose auto-pause
    and auto-resume are the options as given; it plays exactly if it
    played before, or [autoPlay] is the boolean true and the document is
    visible. *)
Theorem metadata_options_applied host m d :
  displayObject m = Some d →
  is_Some (onLoadComplete m) →
  typeof (_options m) ≠ "undefined" →
  is_null (_options m) = false →
  let r := _onLoadedMetaDataHandler host m in
  let o := _options m in
  r.1 = Normal tt ∧ loaded r.2 = true ∧ fired r.2 = S (fired m) ∧
  ∃ d', displayObject r.2 = Some d' ∧
    typeof (do_volume d') = "number" ∧
    typeof (do_loop d') = "boolean" ∧
    typeof (do_currentTime d') = "number" ∧
    do_volume d' = (if bool_decide (typeof (prop_of "volume" o) = "number")
                    then prop_of "volume" o else VNum 1) ∧
    do_loop d' = (if bool_decide (typeof (prop_of "loop" o) = "boolean")
                  then prop_of "loop" o else VBool true) ∧
    do_currentTime d' =
      (if bool_decide (typeof (prop_of "startTime" o) = "number")
       then prop_of "startTime" o else VNum 0) ∧
    do_autoPause d' = prop_of "autoPause" o ∧
    do_autoResume d' = prop_of "autoResume" o ∧
    do_playing d' =
      do_playing d
      || (strict_eq_bool (prop_of "autoPlay" o) true
          && strict_eq_str (document_visibilityState host) "visible").
Proof.
  intros Hd [e He] Ho Hn r o. subst r o.
  rewrite (handler_run host m d e Hd He Ho), Hn.
  unfold loaded, displayObject. simpl. split_and!; try done.
  eexists. split; [reflexivity|]. unfold with_options.
  destruct (strict_eq_bool _ _ && strict_eq_str _ _); simpl;
    rewrite ?orb_true_r, ?orb_false_r;
    split_and!; try done; by case_bool_decide.
Qed.

Lemma metadata_options_applied_witness :
  let m := (new Sample.host Sample.viewer (Object Sample.video_with_options)).2 in
  let r := _onLoadedMetaDataHandler Sample.host m in
  r.1 = Normal tt ∧
  ∃ d', displayObject r.2 = Some d' ∧
    do_volume d' = VNum 1 ∧ do_loop d' = VBool false ∧
    do_currentTime d' = VNum 0 ∧ do_playing d' = true.
Proof.
  intros m r.
  destruct (metadata_options_applied Sample.host m
              (do_set_listener (Some OnLoadedMetaDataHandler)
                 (do_set_url (VStr "m.mp4") (new_VideoHTML5 (VStr "v") false))))
    as (H1 & _ & _ & d' & Hd' & _ & _ & _ & Hv & Hl & Ht & _ & _ & Hp);
    [reflexivity|by eexists|discriminate|reflexivity|].
  split; [exact H1|]. exists d'.
  split; [exact Hd'|]. split; [exact Hv|]. split; [exact Hl|].
  split; [exact Ht|exact Hp].
Defined.

(** X11: With [null] options (none were given), the metadata handler leaves
    the display object as it is and notifies. *)
Theorem metadata_without_options host m d :
  displayObject m = Some d →
  is_Some (onLoadComplete m) →
  is_null (_options m) = true →
  let r := _onLoadedMetaDataHandler host m in
  r.1 = Normal tt ∧ displayObject r.2 = Some d ∧
  loaded r.2 = true ∧ fired r.2 = S (fired m).
Proof.
  intros Hd [e He] Hn r. subst r.
  rewrite (handler_run host m d e Hd He), Hn; [done|].
  by destruct (_options m).
Qed.

Lemma metadata_without_options_witness :
  let m := (new Sample.host Sample.viewer (Object Sample.video_dash)).2 in
  let r := _onLoadedMetaDataHandler Sample.host m in
  r.1 = Normal tt ∧ displayObject r.2 = displayObject m ∧
  loaded r.2 = true ∧ fired r.2 = 1.
Proof.
  intros m r.
  apply (metadata_without_options Sample.host m
           (do_set_listener (Some OnLoadedMetaDataHandler)
              (do_set_url (VStr "m.mpd") (new_VideoDash (VStr "v"))))).
  - reflexivity.
  - by eexists.
  - reflexivity.
Defined.

(** *** Teardown *)

(** X12: [destroy()] clears the dispatcher and the viewer but keeps the
    loaded flag and the configuration; a second [destroy()] completes
    and changes nothing, and nothing else can happen to a destroyed
    media. *)
Theorem destroy_is_final m :
  let m1 := (destroy m).2 in
  onLoadComplete m1 = None ∧ _viewer m1 = None ∧
  loaded m1 = loaded m ∧ config m1 = config m ∧ fired m1 = fired m ∧
  destroy m1 = (Normal tt, m1) ∧
  ∀ host m', rtc (step host) m1 m' → m' = m1.
Proof.
  intros m1.
  assert (Hagain : destroy m1 = (Normal tt, m1)).
  { subst m1. rewrite !destroy_run. simpl. by destruct (_displayObject m). }
  split_and!; try done; try (subst m1; rewrite destroy_run; simpl;
                             by destruct (_displayObject m)).
  intros host m' Hrtc.
  assert (Hnone : _displayObject m1 = None).
  { subst m1. by rewrite destroy_run. }
  induction Hrtc as [|x y z Hstep _ IH]; [done|].
  assert (y = x); [|subst y; by apply IH].
  destruct Hstep as [x d h Hd _|x]; [congruence|].
  by rewrite Hagain.
Qed.

Lemma destroy_is_final_witness :
  let m := (new Sample.host Sample.viewer (Object Sample.image)).2 in
  let m1 := (destroy m).2 in
  onLoadComplete m1 = None ∧ config m1 = config m ∧
  destroy m1 = (Normal tt, m1).
Proof.
  intros m m1.
  destruct (destroy_is_final m) as (H1 & _ & _ & H4 & _ & H6 & _).
  split; [exact H1|]. split; [exact H4|exact H6].
Defined.

End MediaExtra.

(** ** Further properties of FORGE.PostProcessing *)

Module PostProcessingExtra.
Import JS PostProcessing PostProcessingProps.

Ltac exec :=
  repeat (progress (cbv [mbind Eff_bind mret Eff_ret modify this lift throw];
                    simpl)).

(** *** The sets of an object *)

Lemma sets_loop_run fxSets : ∀ p sets,
  _sets p = Some sets →
  sets_loop fxSets p =
    (Normal tt,
     with_sets (Some (foldl (λ acc e, sets_write acc (set_uid e) (set e))
                            sets fxSets)) p).
Proof.
  induction fxSets as [|e rest IH]; intros p sets Hs; simpl.
  - destruct p. simpl in *. by subst.
  - unfold store_set. exec. rewrite Hs. exec.
    by erewrite IH.
Qed.

Lemma last_set_cons uid e rest :
  last_set uid (e :: rest) =
    match last_set uid rest with
    | Some s => Some s
    | None => if decide (set_uid e = uid) then Some (set e) else None
    end.
Proof.
  unfold last_set. rewrite filter_cons.
  destruct (decide (set_uid e = uid)).
  - rewrite last_cons. by destruct (last (filter _ rest)).
  - by destruct (last (filter _ rest)).
Qed.

Lemma lookup_foldl_sets uid fxSets : ∀ sets : gmap string (nullable (list FX)),
  foldl (λ acc e, <[set_uid e := set e]> acc) sets fxSets !! uid =
    match last_set uid fxSets with
    | Some s => Some s
    | None => sets !! uid
    end.
Proof.
  induction fxSets as [|e rest IH]; intros sets; simpl; [done|].
  rewrite IH, last_set_cons.
  destruct (last_set uid rest); [done|].
  destruct (decide (set_uid e = uid)) as [<-|Hne].
  - by rewrite lookup_insert_eq.
  - by rewrite lookup_insert_ne.
Qed.

(** Sets stored under uids other than ["__proto__"] become own
    properties and leave the prototype alone. *)
Lemma foldl_sets_write fxSets : ∀ sets,
  Forall (λ e, set_uid e ≠ "__proto__") fxSets →
  foldl (λ acc e, sets_write acc (set_uid e) (set e)) sets fxSets =
    mkSets (foldl (λ acc e, <[set_uid e := set e]> acc) (own sets) fxSets)
           (proto sets).
Proof.
  induction fxSets as [|e rest IH]; intros sets Hall; simpl.
  - by destruct sets.
  - apply Forall_cons in Hall as [He Hrest].
    rewrite (IH _ Hrest). unfold sets_write.
    by rewrite bool_decide_eq_false_2.
Qed.

Lemma sets_read_own sets uid s :
  own sets !! uid = Some s → sets_read sets uid = Stored s.
Proof. intros H. unfold sets_read. by rewrite H. Qed.

Lemma addConfig_run config p sets fxs :
  _sets p = Some sets →
  fxSets config = Object fxs →
  addConfig config p =
    (Normal tt,
     mkPostProcessing (_viewer p) (Some config)
       (Some (foldl (λ acc e, sets_write acc (set_uid e) (set e)) sets fxs))
       (config_uid config)).
Proof.
  intros Hs Hf. destruct p as [v c s u]. simpl in Hs. subst s.
  unfold addConfig, _parseConfig. exec. rewrite Hf.
  destruct fxs as [|e rest]; [done|].
  rewrite bool_decide_eq_true_2 by (simpl; lia).
  by erewrite sets_loop_run.
Qed.

Lemma lookup_after_addConfig config p sets fxs uid :
  _sets p = Some sets →
  fxSets config = Object fxs →
  Forall (λ e, set_uid e ≠ "__proto__") fxs →
  (getFxSetByUID uid (addConfig config p).2).1 =
    match last_set uid fxs with
    | Some s => Normal (Stored s)
    | None => (getFxSetByUID uid p).1
    end.
Proof.
  intros Hs Hf Hall. rewrite (addConfig_run _ _ _ _ Hs Hf).
  unfold getFxSetByUID. exec. rewrite Hs. exec.
  rewrite (foldl_sets_write _ _ Hall). unfold sets_read. simpl.
  rewrite lookup_foldl_sets. by destruct (last_set uid fxs).
Qed.

(** X13: After [addConfig] of a configuration none of whose sets has the
    uid ["__proto__"], while the object is not destroyed, the read of a
    uid gives the set of the last entry of the configuration with that
    uid, and for a uid the configuration does not mention what it gave
    before. On an object that had no set of that uid and still inherits
    from [Object.prototype], that is [undefined], unless the uid names a
    property of [Object.prototype], which the read then finds. *)
Theorem addConfig_last_write_wins config p sets fxs uid :
  _sets p = Some sets →
  fxSets config = Object fxs →
  Forall (λ e, set_uid e ≠ "__proto__") fxs →
  let r := addConfig config p in
  r.1 = Normal tt ∧
  _config r.2 = Some config ∧ _uid r.2 = config_uid config ∧
  (getFxSetByUID uid r.2).1 =
    match last_set uid fxs with
    | Some s => Normal (Stored s)
    | None => (getFxSetByUID uid p).1
    end ∧
  (last_set uid fxs = None → own sets !! uid = None →
   proto sets = ObjectPrototype →
   (getFxSetByUID uid r.2).1 =
     Normal (if bool_decide (uid ∈ Object_prototype_names)
             then Builtin uid else Stored Absent)).
Proof.
  intros Hs Hf Hall r. subst r.
  pose proof (lookup_after_addConfig config p sets fxs uid Hs Hf Hall) as Hl.
  split_and!; try by rewrite (addConfig_run _ _ _ _ Hs Hf).
  - done.
  - intros Hlast Hown Hproto. rewrite Hl, Hlast.
    unfold getFxSetByUID. exec. rewrite Hs. exec.
    unfold sets_read. by rewrite Hown, Hproto.
Qed.

Lemma addConfig_last_write_wins_witness :
  let p := (new Sample.viewer).2 in
  let r := addConfig Sample.fx_config p in
  r.1 = Normal tt ∧
  (getFxSetByUID "low" r.2).1 = Normal (Stored (Object [Sample.fx_unknown])) ∧
  (getFxSetByUID "high" r.2).1 =
    Normal (Stored (Object [Sample.fx_copy; Sample.fx_unknown])) ∧
  (getFxSetByUID "medium" r.2).1 = Normal (Stored Absent) ∧
  (getFxSetByUID "constructor" r.2).1 = Normal (Builtin "constructor").
Proof.
  intros p r.
  assert (Hall : Forall (λ e, set_uid e ≠ "__proto__")
                   [ mkFXSet "low" (Object [Sample.fx_copy]);
                     mkFXSet "high" (Object [Sample.fx_copy; Sample.fx_unknown]);
                     mkFXSet "low" (Object [Sample.fx_unknown]) ]).
  { repeat constructor; discriminate. }
  pose proof (λ uid, addConfig_last_write_wins Sample.fx_config p
                       (mkSets ∅ ObjectPrototype) _ uid eq_refl eq_refl Hall)
    as H.
  destruct (H "low") as (H1 & _ & _ & Hlow & _).
  destruct (H "high") as (_ & _ & _ & Hhigh & _).
  destruct (H "medium") as (_ & _ & _ & Hmed & _).
  destruct (H "constructor") as (_ & _ & _ & _ & Hcon).
  split; [exact H1|]. split; [exact Hlow|]. split; [exact Hhigh|].
  split; [exact Hmed|].
  exact (Hcon eq_refl eq_refl eq_refl).
Defined.

(** A set stored under the uid ["__proto__"] becomes the prototype of
    the sets object: the read of that uid gives the set back, and the
    read of any other uid that has no set goes through the array. *)
Lemma proto_uid_replaces_prototype :
  let config :=
    mkFXConfig (VStr "fx")
      (Object [mkFXSet "__proto__" (Object [Sample.fx_copy])]) in
  let r := addConfig config (new Sample.viewer).2 in
  (getFxSetByUID "__proto__" r.2).1 = Normal (Stored (Object [Sample.fx_copy])) ∧
  (getFxSetByUID "constructor" r.2).1 =
    Normal (ArrayProperty [Sample.fx_copy] "constructor") ∧
  (getFxSetByUID "0" r.2).1 = Normal (ArrayProperty [Sample.fx_copy] "0").
Proof. vm_compute. done. Qed.

(** X14: Adding two configurations one after the other leaves the sets that
    adding one configuration with the entries of the first followed by
    those of the second leaves. *)
Theorem addConfig_twice c1 c2 p sets l1 l2 :
  _sets p = Some sets →
  fxSets c1 = Object l1 →
  fxSets c2 = Object l2 →
  let r := addConfig c2 (addConfig c1 p).2 in
  let both := mkFXConfig (config_uid c2) (Object (l1 ++ l2)%list) in
  r.1 = Normal tt ∧
  _sets r.2 = _sets (addConfig both p).2 ∧
  _config r.2 = Some c2 ∧ _uid r.2 = config_uid c2.
Proof.
  intros Hs H1 H2 r both. subst r both.
  rewrite (addConfig_run _ _ _ _ Hs H1).
  erewrite (addConfig_run c2); [|reflexivity|done].
  erewrite (addConfig_run (mkFXConfig _ _)); [|done|reflexivity].
  simpl. by rewrite foldl_app.
Qed.

Lemma addConfig_twice_witness :
  let p := (new Sample.viewer).2 in
  let c1 := mkFXConfig (VStr "a") (Object [mkFXSet "low" (Object [Sample.fx_copy])]) in
  let r := addConfig Sample.fx_config (addConfig c1 p).2 in
  r.1 = Normal tt ∧ _config r.2 = Some Sample.fx_config ∧ _uid r.2 = VStr "fx".
Proof.
  intros p c1 r.
  destruct (addConfig_twice c1 Sample.fx_config p (mkSets ∅ ObjectPrototype)
              [mkFXSet "low" (Object [Sample.fx_copy])]
              [ mkFXSet "low" (Object [Sample.fx_copy]);
                mkFXSet "high" (Object [Sample.fx_copy; Sample.fx_unknown]);
                mkFXSet "low" (Object [Sample.fx_unknown]) ]
              eq_refl eq_refl eq_refl) as (H1 & _ & H3 & H4).
  split; [exact H1|]. split; [exact H3|exact H4].
Defined.

(** X15: [addConfig] with no [fxSets], or an empty list, completes and leaves
    the sets as they are, destroyed or not; with [fxSets: null] it throws
    a [TypeError] (line 64 reads the length of [null]) and leaves the
    sets as they are. Either way the configuration and its uid are
    recorded. *)
Theorem addConfig_without_sets config p :
  let r := addConfig config p in
  match fxSets config with
  | Absent | Object [] => r.1 = Normal tt
  | IsNull => r.1 = Throw (TypeError "Cannot read property 'length' of null")
  | Object (_ :: _) => True
  end ∧
  (fxSets config = Absent ∨ fxSets config = IsNull ∨ fxSets config = Object [] →
   _sets r.2 = _sets p) ∧
  _config r.2 = Some config ∧ _uid r.2 = config_uid config.
Proof.
  intros r. subst r. unfold addConfig, _parseConfig. exec.
  assert (Hloop : ∀ l q, _config (sets_loop l q).2 = _config q ∧
                         _uid (sets_loop l q).2 = _uid q).
  { induction l as [|e rest IH]; intros q; [done|]. simpl.
    unfold store_set. exec. destruct (_sets q); exec; [|done].
    destruct (IH (with_sets (Some (sets_write s (set_uid e) (set e))) q))
      as [-> ->].
    done. }
  destruct (fxSets config) as [| |[|e rest]] eqn:E; simpl.
  - split_and!; try done.
  - split_and!; try done.
  - split_and!; try done.
  - split_and!; try done.
    + by intros [?|[?|?]].
    + unfold store_set. exec. destruct (_sets p) as [g|]; exec; [|done].
      by destruct (Hloop rest (with_sets (Some (sets_write g (set_uid e) (set e)))
                     (with_uid (config_uid config) (with_config (Some config) p))))
        as [-> _].
    + unfold store_set. exec. destruct (_sets p) as [g|]; exec; [|done].
      by destruct (Hloop rest (with_sets (Some (sets_write g (set_uid e) (set e)))
                     (with_uid (config_uid config) (with_config (Some config) p))))
        as [_ ->].
Qed.

Lemma addConfig_without_sets_witness :
  let p := (new Sample.viewer).2 in
  let r := addConfig (mkFXConfig (VStr "fx") IsNull) p in
  r.1 = Throw (TypeError "Cannot read property 'length' of null") ∧
  _sets r.2 = _sets p ∧ _uid r.2 = VStr "fx".
Proof.
  intros p r.
  destruct (addConfig_without_sets (mkFXConfig (VStr "fx") IsNull) p)
    as (H1 & H2 & _ & H4).
  split; [exact H1|]. split; [|exact H4].
  apply H2. right. left. reflexivity.
Defined.

(** X16: [destroy()] completes, and twice as well as once. On a destroyed
    object [getFxSetByUID] throws a [TypeError] for every uid, and so does
    [addConfig] with a configuration that has at least one set. *)
Theorem destroyed_object_throws p :
  let q := (destroy p).2 in
  (destroy p).1 = Normal tt ∧ _sets q = None ∧ _viewer q = None ∧
  destroy q = (Normal tt, q) ∧
  (∀ uid, ∃ msg, getFxSetByUID uid q = (Throw (TypeError msg), q)) ∧
  (∀ config e rest, fxSets config = Object (e :: rest) →
     ∃ msg, (addConfig config q).1 = Throw (TypeError msg) ∧
            _sets (addConfig config q).2 = None).
Proof.
  intros q. subst q. unfold destroy. exec. split_and!; try done.
  - intros uid. by eexists.
  - intros config e rest Hf. unfold addConfig, _parseConfig. exec.
    rewrite Hf. simpl. unfold store_set. exec. by eexists.
Qed.

Lemma destroyed_object_throws_witness :
  let q := (destroy (addConfig Sample.fx_config (new Sample.viewer).2).2).2 in
  ∃ msg, (addConfig Sample.fx_config q).1 = Throw (TypeError msg) ∧
         _sets (addConfig Sample.fx_config q).2 = None.
Proof.
  intros q.
  destruct (destroyed_object_throws
              (addConfig Sample.fx_config (new Sample.viewer).2).2)
    as (_ & _ & _ & _ & _ & H).
  exact (H Sample.fx_config _ _ eq_refl).
Defined.

(** *** Sets and compilation together *)

(** X17: On an object that is not destroyed and still inherits from
    [Object.prototype], a uid that has no set and names no property of
    [Object.prototype] compiles to the empty list of passes, without
    warning and without error: [getFxSetByUID] gives [undefined] and
    [parseShaderPasses] accepts it; and after [addConfig] the set found
    under the uid of the last entry, if that uid is not ["__proto__"],
    compiles as the set that entry gave. *)
Theorem set_lookup_then_compile host p sets uid log :
  _sets p = Some sets →
  (own sets !! uid = None → proto sets = ObjectPrototype →
   uid ∉ Object_prototype_names →
   ∃ s, (getFxSetByUID uid p).1 = Normal (Stored s) ∧
        parseShaderPasses host s log = (Normal [], log)) ∧
  (∀ config fxs e, fxSets config = Object (fxs ++ [e])%list →
   set_uid e ≠ "__proto__" →
   ∃ s, (getFxSetByUID (set_uid e) (addConfig config p).2).1 = Normal (Stored s) ∧
        parseShaderPasses host s log = parseShaderPasses host (set e) log).
Proof.
  intros Hs. split.
  - intros Hown Hproto Hnot. exists Absent. split; [|done].
    unfold getFxSetByUID. exec. rewrite Hs. exec.
    unfold sets_read. rewrite Hown, Hproto.
    by rewrite bool_decide_eq_false_2.
  - intros config fxs e Hf He. exists (set e). split; [|done].
    rewrite (addConfig_run _ _ _ _ Hs Hf).
    unfold getFxSetByUID. exec. rewrite foldl_app. simpl.
    apply f_equal, sets_read_own. unfold sets_write.
    rewrite bool_decide_eq_false_2 by done. simpl.
    by rewrite lookup_insert_eq.
Qed.

Lemma set_lookup_then_compile_witness :
  ∃ s, (getFxSetByUID "medium" (new Sample.viewer).2).1 = Normal (Stored s) ∧
       parseShaderPasses Sample.catalog s [] = (Normal [], []).
Proof.
  destruct (set_lookup_then_compile Sample.catalog (new Sample.viewer).2
              (mkSets ∅ ObjectPrototype) "medium" [] eq_refl) as [H _].
  apply H; [reflexivity|reflexivity|].
  intros Hin. repeat (apply elem_of_cons in Hin as [Heq|Hin];
                      [discriminate Heq|]).
  by apply elem_of_nil in Hin.
Defined.

(** *** Stages and their parameters *)

Lemma bind_params_complete fx names : ∀ u : gmap string value,
  (∀ k, k ∈ names →
        is_Some (u !! k) ∧ is_throw (resolve_param (declared fx k)) = false) →
  is_throw (bind_params fx names u) = false.
Proof.
  induction names as [|param rest IH]; intros u Hall; [done|]. simpl.
  destruct (Hall param) as [[old Hold] Hres]; [by left|].
  unfold bind_param. destruct (resolve_param (declared fx param)) as [v|e];
    [|done].
  rewrite Hold. apply IH. intros k Hk.
  destruct (Hall k) as [Hslot Hv]; [by right|]. split; [|done].
  destruct (decide (param = k)) as [<-|Hne].
  - by rewrite lookup_insert_eq.
  - by rewrite lookup_insert_ne.
Qed.

(** X18: For an effect whose uniforms are a plain object with the slots
    [slots], the stage of a descriptor none of whose parameters is named
    [__proto__] is built exactly when every declared parameter names a
    slot of the effect or a property the uniforms object inherits from
    [Object.prototype], and has a value that can be constructed. *)
Theorem stage_built_iff shader fx (slots : gmap string value) :
  shader_uniforms shader = Some (plain_uniforms slots) →
  "__proto__" ∉ (params fx).*1 →
  is_throw (build_pass shader fx) = false ↔
  ∀ name, name ∈ (params fx).*1 →
    (is_Some (slots !! name) ∨ name ∈ Object_prototype_names) ∧
    is_throw (resolve_param (declared fx name)) = false.
Proof.
  intros Hu _. split.
  - intros Hok name Hin.
    destruct (build_pass shader fx) as [pass|e] eqn:E; [|done].
    apply (build_pass_Normal _ _ _ _ Hu) in E as (u' & Hrun & _).
    destruct (bind_params_Normal _ _ _ _ Hrun name) as [H _].
    destruct (H Hin) as (Hslot & v & Hv & _).
    split; [by apply plain_uniforms_is_Some|by rewrite Hv].
  - intros Hall.
    assert (Hall' : ∀ k, k ∈ (params fx).*1 →
              is_Some (plain_uniforms slots !! k) ∧
              is_throw (resolve_param (declared fx k)) = false).
    { intros k Hk. destruct (Hall k Hk) as [Hs Hv].
      split; [by apply plain_uniforms_is_Some|done]. }
    pose proof (bind_params_complete fx _ _ Hall') as Hok.
    unfold build_pass. simpl. rewrite Hu.
    by destruct (bind_params fx (params fx).*1 (plain_uniforms slots)).
Qed.

Lemma stage_built_iff_witness :
  is_throw (build_pass Sample.tint (Sample.fx_tint Sample.matrix_spec)) = false ∧
  is_throw (build_pass Sample.tint Sample.fx_inherited_name) = false.
Proof.
  assert (Hone : ∀ name v k,
            k ∈ (params (mkFX (VStr "fx-tint") "Tint" [(name, v)])).*1 →
            k = name).
  { intros name v k Hin. by apply list_elem_of_In in Hin as [<-|[]]. }
  split.
  - apply (stage_built_iff Sample.tint (Sample.fx_tint Sample.matrix_spec)
             Sample.tint_uniforms eq_refl).
    + intros Hin. by apply Hone in Hin.
    + intros name Hin. apply Hone in Hin as ->.
      split; [left; by eexists|reflexivity].
  - apply (stage_built_iff Sample.tint Sample.fx_inherited_name
             Sample.tint_uniforms eq_refl).
    + intros Hin. by apply Hone in Hin.
    + intros name Hin. apply Hone in Hin as ->.
      split; [right|reflexivity].
      apply list_elem_of_In. vm_compute. tauto.
Defined.

(** X19: A stage that was built has the uniform names of its effect, no more
    and no fewer; the slots no parameter names hold what the effect
    declared, and the slot of each declared parameter holds the value
    constructed for it. *)
Theorem stage_uniforms_frame shader fx (u : gmap string value) pass :
  shader_uniforms shader = Some u →
  build_pass shader fx = Normal pass →
  pass_shader pass = shader ∧
  ∃ u', uniforms pass = Some u' ∧
    (∀ k, is_Some (u' !! k) ↔ is_Some (u !! k)) ∧
    (∀ k, k ∉ (params fx).*1 → u' !! k = u !! k) ∧
    (∀ k, k ∈ (params fx).*1 →
       ∃ v, resolve_param (declared fx k) = Normal v ∧ u' !! k = Some v).
Proof.
  intros Hu Hpass.
  apply (build_pass_Normal _ _ _ _ Hu) in Hpass as (u' & Hrun & ->).
  split; [done|]. exists u'. split; [done|].
  pose proof (bind_params_Normal _ _ _ _ Hrun) as H.
  split_and!.
  - intros k. destruct (H k) as [Hin Hout].
    destruct (decide (k ∈ (params fx).*1)) as [Hk|Hk].
    + destruct (Hin Hk) as (Hs & v & _ & Hv). rewrite Hv. split; eauto.
    + by rewrite (Hout Hk).
  - intros k Hk. by apply H.
  - intros k Hk. destruct (H k) as [Hin _]. by destruct (Hin Hk) as [_ ?].
Qed.

Lemma stage_uniforms_frame_witness :
  match build_pass Sample.tint (Sample.fx_tint (VStr "red")) with
  | Normal pass =>
      slot_value "color" pass = Some (VStr "red") ∧
      slot_value "amount" pass = Some (VNum 1) ∧
      slot_value "opacity" pass = None
  | Throw _ => False
  end.
Proof.
  destruct (build_pass Sample.tint (Sample.fx_tint (VStr "red")))
    as [pass|e] eqn:E; [|vm_compute in E; discriminate E].
  destruct (stage_uniforms_frame Sample.tint (Sample.fx_tint (VStr "red"))
              (plain_uniforms Sample.tint_uniforms) pass eq_refl E)
    as (_ & u' & Hu' & Hdom & Hout & Hin).
  unfold slot_value. rewrite Hu'. simpl.
  assert (Hnot : ∀ k, k ≠ "color" → k ∉ (params (Sample.fx_tint (VStr "red"))).*1).
  { intros k Hk Hin'. apply list_elem_of_In in Hin' as [<-|[]]. done. }
  split; [|split].
  - destruct (Hin "color") as (v & Hv & ->); [by apply list_elem_of_In; left|].
    vm_compute in Hv. by injection Hv as <-.
  - by rewrite (Hout "amount") by (by apply Hnot).
  - by rewrite (Hout "opacity") by (by apply Hnot).
Defined.

(** X20: An effect without uniform surface takes no parameter: its stage is
    built whatever the descriptor declares, and a list of descriptors
    that resolve to such effects, or to none, compiles without error. *)
Theorem no_surface_no_binding host :
  (∀ shader fx, shader_uniforms shader = None →
     build_pass shader fx = Normal (mkShaderPass (uid fx) (type fx) shader None)) ∧
  (∀ fxs log,
     Forall (λ fx, ∀ shader, THREE host !! type fx = Some shader →
                             shader_uniforms shader = None) fxs →
     ∃ passes, (parseShaderPasses host (Object fxs) log).1 = Normal passes ∧
               length passes + length (skipped host fxs) = length fxs).
Proof.
  assert (H1 : ∀ shader fx, shader_uniforms shader = None →
     build_pass shader fx = Normal (mkShaderPass (uid fx) (type fx) shader None)).
  { intros shader fx Hn. unfold build_pass, new_ShaderPass. simpl.
    by rewrite Hn. }
  split; [done|]. intros fxs log Hall.
  rewrite parseShaderPasses_stages.
  assert (Hok : Forall (λ c, is_throw c = false) (resolvable_stages host fxs)).
  { induction Hall as [|fx rest Hfx _ IH]; [constructor|].
    rewrite resolvable_stages_cons.
    destruct (THREE host !! type fx) as [shader|] eqn:E; [|exact IH].
    constructor; [|exact IH]. by rewrite (H1 shader fx (Hfx shader eq_refl)). }
  destruct (all_stages (resolvable_stages host fxs)) as [passes|e] eqn:E.
  - exists passes. split; [done|].
    apply all_stages_Normal in E as [-> _]. apply resolvable_or_skipped.
  - apply all_stages_total in Hok. by rewrite E in Hok.
Qed.

Lemma no_surface_no_binding_witness :
  ∃ passes,
    (parseShaderPasses Sample.catalog
       (Object [Sample.fx_copy; Sample.fx_unknown]) []).1 = Normal passes ∧
    length passes + 1 = 2.
Proof.
  destruct (no_surface_no_binding Sample.catalog) as [_ H].
  apply (H [Sample.fx_copy; Sample.fx_unknown] []).
  repeat constructor; intros shader Hs; vm_compute in Hs;
    [by injection Hs as <-|discriminate Hs].
Defined.

(** X21: A vector parameter is not checked for arity: from an [args] list of
    any length a [THREE.Vector2] is built of its first two elements and a
    [THREE.Vector3] of its first three, [undefined] standing for each
    element the list lacks; only [args] being [null] makes the
    construction throw. *)
Theorem vector_of_any_list props (tag args : value) :
  assoc "type" props = Some tag →
  assoc "args" props = Some args →
  (tag = VStr "THREE.Vector2" →
     (∀ items, args = VArr items →
        resolve_param (VObj props) =
          Normal (VVector2 (default VUndefined (items !! 0))
                           (default VUndefined (items !! 1)))) ∧
     (args = VNull → is_throw (resolve_param (VObj props)) = true)) ∧
  (tag = VStr "THREE.Vector3" →
     (∀ items, args = VArr items →
        resolve_param (VObj props) =
          Normal (VVector3 (default VUndefined (items !! 0))
                           (default VUndefined (items !! 1))
                           (default VUndefined (items !! 2)))) ∧
     (args = VNull → is_throw (resolve_param (VObj props)) = true)).
Proof.
  intros Ht Ha. rewrite (resolve_param_tagged _ _ _ Ht Ha).
  split; intros ->; (split; [by intros items ->|by intros ->]).
Qed.

Lemma vector_of_any_list_witness :
  resolve_param Sample.vector_one_arg = Normal (VVector2 (VNum 1) VUndefined).
Proof.
  destruct (vector_of_any_list
              [("type", VStr "THREE.Vector2"); ("args", VArr [VNum 1])]
              (VStr "THREE.Vector2") (VArr [VNum 1]) eq_refl eq_refl)
    as [H _].
  destruct (H eq_refl) as [Hlist _].
  exact (Hlist [VNum 1] eq_refl).
Defined.

(** *** Compiling a list in two parts *)

Lemma passes_loop_acc host fxs : ∀ acc log,
  passes_loop host fxs acc log =
    match passes_loop host fxs [] log with
    | (Normal ps, log') => (Normal (acc ++ ps)%list, log')
    | (Throw e, log') => (Throw e, log')
    end.
Proof.
  induction fxs as [|fx rest IH]; intros acc log; simpl.
  - by rewrite app_nil_r.
  - destruct (THREE host !! type fx) as [shader|].
    + unfold mbind, Eff_bind, lift.
      destruct (build_pass shader fx) as [p|e]; simpl; [|done].
      rewrite (IH (acc ++ [p])%list), (IH [p]).
      destruct (passes_loop host rest [] log) as [[ps|e] log']; [|done].
      by rewrite <- app_assoc.
    + unfold mbind, Eff_bind, warn, modify. apply IH.
Qed.

Lemma passes_loop_app host l1 l2 : ∀ acc log,
  passes_loop host (l1 ++ l2) acc log =
    match passes_loop host l1 acc log with
    | (Normal ps, log') => passes_loop host l2 ps log'
    | (Throw e, log') => (Throw e, log')
    end.
Proof.
  induction l1 as [|fx rest IH]; intros acc log; simpl; [done|].
  destruct (THREE host !! type fx) as [shader|].
  - unfold mbind, Eff_bind, lift.
    destruct (build_pass shader fx) as [p|e]; simpl; [|done]. apply IH.
  - unfold mbind, Eff_bind, warn, modify. apply IH.
Qed.

Lemma parseShaderPasses_loop host fxs log :
  parseShaderPasses host (Object fxs) log = passes_loop host fxs [] log.
Proof. unfold parseShaderPasses. by destruct fxs. Qed.

(** X22: Compiling a list made of two parts is compiling the first part and
    then, if that gave passes, the second part with the warnings so far:
    the passes are those of the first part followed by those of the
    second, and an error in either part is the error of the whole. *)
Theorem compile_append host l1 l2 log :
  parseShaderPasses host (Object (l1 ++ l2)%list) log =
    match parseShaderPasses host (Object l1) log with
    | (Normal ps1, log1) =>
        match parseShaderPasses host (Object l2) log1 with
        | (Normal ps2, log2) => (Normal (ps1 ++ ps2)%list, log2)
        | (Throw e, log2) => (Throw e, log2)
        end
    | (Throw e, log1) => (Throw e, log1)
    end.
Proof.
  rewrite !parseShaderPasses_loop, passes_loop_app.
  destruct (passes_loop host l1 [] log) as [[ps1|e] log1]; [|done].
  by rewrite parseShaderPasses_loop, passes_loop_acc.
Qed.

(** X23: A descriptor whose stage cannot be built ends the compilation: the
    passes built before it are not returned, the descriptors after it
    are not looked at, and the warnings are those given before it. *)
Theorem compile_stops_at_first_error host l1 fx l2 shader e ps log log1 :
  THREE host !! type fx = Some shader →
  build_pass shader fx = Throw e →
  parseShaderPasses host (Object l1) log = (Normal ps, log1) →
  parseShaderPasses host (Object (l1 ++ fx :: l2)%list) log = (Throw e, log1).
Proof.
  intros Hcat Hthrow Hl1.
  rewrite !parseShaderPasses_loop in *. rewrite passes_loop_app, Hl1.
  simpl. rewrite Hcat. unfold mbind, Eff_bind, lift. by rewrite Hthrow.
Qed.

Lemma compile_stops_at_first_error_witness :
  parseShaderPasses Sample.catalog
    (Object [Sample.fx_unknown; Sample.fx_copy; Sample.fx_bad_name;
             Sample.fx_unknown]) [] =
  (Throw (TypeError "Cannot set property 'value' of undefined"),
   ["Unknown image effect (NoSuchEffect)"]).
Proof.
  apply (compile_stops_at_first_error Sample.catalog
           [Sample.fx_unknown; Sample.fx_copy] Sample.fx_bad_name
           [Sample.fx_unknown] Sample.tint _
           [mkShaderPass (VStr "fx-copy") "Copy" Sample.copy None]).
  - reflexivity.
  - vm_compute. reflexivity.
  - vm_compute. reflexivity.
Defined.

End PostProcessingExtra.
